(** * AIScribe: the multi-task content processor of [scribe.py]

    A shallow embedding of the [AIScribe] class (speech recognition,
    summarization, translation and the [process] dispatcher) together with
    the properties its specification states about it.

    Python values are [PyVal] ([str] or [None]); a method call either
    returns a value or raises an exception ([Outcome]).  The external
    libraries ([speech_recognition], [transformers]) are a record of
    deterministic functions ([Backends]); every call to them and every
    [print] is recorded in a trace, so that "the provider is never
    invoked" is a statement about the trace.  The attributes of [self]
    are a finite map from attribute names to objects. *)

From Stdlib Require Import Ascii String List ZArith.
From Stdlib.Strings Require Import Byte.
From stdpp Require Import base gmap strings list fin_maps.
Import ListNotations.

Local Open Scope string_scope.
Local Open Scope list_scope.

(** ** Python values, exceptions and objects *)

(** What [process] and the three capability methods return. *)
Inductive PyVal :=
| VNone
| VStr (s : string).

(** The exception classes the code names, and the ones indexing, attribute
    access and calls can raise; [OtherError] stands for any other class a
    backend raises (e.g. [ValueError] from [sr.AudioFile], [RuntimeError]
    from a model). *)
Inductive PyExc :=
| UnknownValueError
| RequestError (msg : string)
| FileNotFoundError
| IndexError
| KeyError (key : string)
| AttributeError (name : string)
| TypeError
| OtherError (cls msg : string).

(** The objects held in the attributes of an [AIScribe]. *)
Inductive PyObj :=
| ORecognizer
| OPipeline (task model : string).

(** Keyword arguments of a pipeline call. *)
Inductive KwVal :=
| KInt (z : Z)
| KBool (b : bool).

(** An opened [sr.AudioFile] and the [AudioData] read from it. *)
Record AudioSource := { source_path : string; stream : list byte }.
Record AudioData := { frame_data : list byte }.

(** The external world: the behaviour of [speech_recognition] and
    [transformers] on each input. *)
Record Backends := {
  (* transformers.pipeline(task, model=name): the exception of a failed load *)
  transformers_pipeline : string -> string -> option PyExc;
  (* sr.AudioFile(path).__enter__() *)
  AudioFile_enter : string -> PyExc + AudioSource;
  (* Recognizer.record(source) *)
  Recognizer_record : AudioSource -> PyExc + AudioData;
  (* Recognizer.recognize_google(audio_data) *)
  Recognizer_recognize_google : AudioData -> PyExc + string;
  (* Pipeline.__call__(text, **kwargs) of the pipeline built for (task, model) *)
  Pipeline_call : string -> string -> string -> list (string * KwVal)
                  -> PyExc + list (gmap string string)
}.

(** What is observable from outside a call, in order. *)
Inductive Event :=
| EvLoadPipeline (task model : string)
| EvAudioOpen (path : string)
| EvAudioClose (path : string)
| EvRecord (src : AudioSource)
| EvRecognizeGoogle (audio : AudioData)
| EvPipelineCall (task model text : string) (kwargs : list (string * KwVal))
| EvPrint (line : string).

(** The state a method runs in: the attributes of [self] and the trace. *)
Record State := { attrs : gmap string PyObj; trace : list Event }.

(** ** The monad of Python statements *)

Inductive Outcome (A : Type) :=
| Return (a : A)
| Raise (e : PyExc).
Arguments Return {A} a.
Arguments Raise {A} e.

Definition M (A : Type) : Type := State -> Outcome A * State.

Definition ret {A : Type} (a : A) : M A := fun st => (Return a, st).

Definition raise {A : Type} (e : PyExc) : M A := fun st => (Raise e, st).

Definition bind {A B : Type} (m : M A) (k : A -> M B) : M B :=
  fun st =>
    match m st with
    | (Return a, st') => k a st'
    | (Raise e, st') => (Raise e, st')
    end.

Declare Scope py_scope.
Delimit Scope py_scope with py.
Notation "x <- m ;; k" := (bind m (fun x => k))
  (at level 100, m at next level, right associativity) : py_scope.
Notation "m ;; k" := (bind m (fun _ => k))
  (at level 100, right associativity) : py_scope.
Local Open Scope py_scope.

(** [try: body except ...: handler]; a handler of [None] does not match
    the exception, which then propagates. *)
Definition try_except {A : Type} (body : M A) (handler : PyExc -> option (M A)) : M A :=
  fun st =>
    match body st with
    | (Return a, st') => (Return a, st')
    | (Raise e, st') =>
        match handler e with
        | Some h => h st'
        | None => (Raise e, st')
        end
    end.

(** Run [cleanup] whatever the outcome of [body] (the [__exit__] of a
    [with] block that does not suppress exceptions). *)
Definition finally {A : Type} (body : M A) (cleanup : M unit) : M A :=
  fun st =>
    match body st with
    | (r, st') =>
        match cleanup st' with
        | (Return _, st'') => (r, st'')
        | (Raise e, st'') => (Raise e, st'')
        end
    end.

Definition emit (ev : Event) : M unit :=
  fun st => (Return tt, {| attrs := attrs st; trace := trace st ++ [ev] |}).

Definition lift {A : Type} (r : PyExc + A) : M A :=
  match r with
  | inl e => raise e
  | inr a => ret a
  end.

(** [self.name] *)
Definition getattr (name : string) : M PyObj :=
  fun st =>
    match attrs st !! name with
    | Some o => (Return o, st)
    | None => (Raise (AttributeError name), st)
    end.

(** [self.name = o] *)
Definition setattr (name : string) (o : PyObj) : M unit :=
  fun st => (Return tt, {| attrs := <[name := o]> (attrs st); trace := trace st |}).

Definition print (line : string) : M unit := emit (EvPrint line).

(** [l[0]] *)
Definition index0 {A : Type} (l : list A) : M A :=
  match l !! 0%nat with
  | Some a => ret a
  | None => raise IndexError
  end.

(** [d[key]] *)
Definition subscript (d : gmap string string) (key : string) : M string :=
  match d !! key with
  | Some v => ret v
  | None => raise (KeyError key)
  end.

Definition is_failure {A : Type} (o : Outcome A) : bool :=
  match o with
  | Return _ => false
  | Raise _ => true
  end.

(** ** The class [AIScribe] *)

Section AIScribe.

Variable B : Backends.

(** [sr.Recognizer()] *)
Definition sr_Recognizer : M PyObj := ret ORecognizer.

(** [transformers.pipeline(task, model=model)] *)
Definition new_pipeline (task model : string) : M PyObj :=
  emit (EvLoadPipeline task model) ;;
  match transformers_pipeline B task model with
  | Some e => raise e
  | None => ret (OPipeline task model)
  end.

(** [with sr.AudioFile(path) as source: body] *)
Definition with_AudioFile {A : Type} (path : string) (body : AudioSource -> M A) : M A :=
  emit (EvAudioOpen path) ;;
  source <- lift (AudioFile_enter B path) ;;
  finally (body source) (emit (EvAudioClose path)).

(** [r.record(source)] *)
Definition record (r : PyObj) (source : AudioSource) : M AudioData :=
  match r with
  | ORecognizer => emit (EvRecord source) ;; lift (Recognizer_record B source)
  | OPipeline _ _ => raise (AttributeError "record")
  end.

(** [r.recognize_google(audio_data)] *)
Definition recognize_google (r : PyObj) (audio_data : AudioData) : M string :=
  match r with
  | ORecognizer =>
      emit (EvRecognizeGoogle audio_data) ;;
      lift (Recognizer_recognize_google B audio_data)
  | OPipeline _ _ => raise (AttributeError "recognize_google")
  end.

(** [p(text, **kwargs)] *)
Definition call (p : PyObj) (text : string) (kwargs : list (string * KwVal))
  : M (list (gmap string string)) :=
  match p with
  | OPipeline task model =>
      emit (EvPipelineCall task model text kwargs) ;;
      lift (Pipeline_call B task model text kwargs)
  | ORecognizer => raise TypeError
  end.

Definition __init__ (summary_model_name translation_model_name : string) : M unit :=
  r <- sr_Recognizer ;;
  setattr "recognizer" r ;;
  s <- new_pipeline "summarization" summary_model_name ;;
  setattr "summary_model" s ;;
  t <- new_pipeline "translation" translation_model_name ;;
  setattr "translation_model" t.

(** The [try] block of [transcribe_audio]. *)
Definition transcribe_try (audio_file_path : string) : M PyVal :=
  with_AudioFile audio_file_path (fun source =>
    r <- getattr "recognizer" ;;
    audio_data <- record r source ;;
    r' <- getattr "recognizer" ;;
    text <- recognize_google r' audio_data ;;
    ret (VStr text)).

(** The [except] clauses of [transcribe_audio]. *)
Definition transcribe_except (audio_file_path : string) (e : PyExc)
  : option (M PyVal) :=
  match e with
  | UnknownValueError =>
      Some (print "Speech recognition could not understand audio" ;;
            ret VNone)
  | RequestError msg =>
      (* [str(e)] of a [RequestError] is its message *)
      Some (print ("Could not request results from Google Speech Recognition service; "
                   +:+ msg) ;;
            ret VNone)
  | FileNotFoundError =>
      Some (print ("File not found: " +:+ audio_file_path) ;;
            ret VNone)
  | _ => None
  end.

Definition transcribe_audio (audio_file_path : string) : M PyVal :=
  try_except (transcribe_try audio_file_path) (transcribe_except audio_file_path).

Definition summarize_text (text : string) : M PyVal :=
  m <- getattr "summary_model" ;;
  summary <- call m text
    [("max_length", KInt 150); ("min_length", KInt 30); ("do_sample", KBool false)] ;;
  d <- index0 summary ;;
  s <- subscript d "summary_text" ;;
  ret (VStr s).

Definition translate_text (text : string) (target_language : string) : M PyVal :=
  if (target_language =? "fr")%string then
    m <- getattr "translation_model" ;;
    out <- call m text [] ;;
    d <- index0 out ;;
    translated <- subscript d "translation_text" ;;
    ret (VStr translated)
  else
    print "Target language not currently supported. Only French is supported" ;;
    ret (VStr "Target language not supported").

Definition process (input_data : string) (task : string) (target_language : string)
  : M PyVal :=
  if (task =? "transcribe")%string then
    transcribe_audio input_data
  else if (task =? "summarize")%string then
    summarize_text input_data
  else if (task =? "translate")%string then
    translate_text input_data target_language
  else
    ret (VStr "Invalid task.").

(** A call site that may leave out the keyword parameters of [process]:
    an omitted parameter takes the default of the signature. *)
Definition process_call (input_data : string) (task target_language : option string)
  : M PyVal :=
  process input_data (default "transcribe" task) (default "fr" target_language).

(** [translate_text(text)] and [translate_text(text, lang)] *)
Definition translate_text_call (text : string) (target_language : option string)
  : M PyVal :=
  translate_text text (default "fr" target_language).

(** [AIScribe(...)]: a fresh object initialised by [__init__]. *)
Definition AIScribe_new (summary_model_name translation_model_name : option string)
  : M unit :=
  __init__ (default "facebook/bart-large-cnn" summary_model_name)
           (default "Helsinki-NLP/opus-mt-en-fr" translation_model_name).

End AIScribe.

(** ** Callers and concrete worlds *)

(** A state extended by the events [evs]; the attributes are untouched. *)
Definition log (st : State) (evs : list Event) : State :=
  {| attrs := attrs st; trace := trace st ++ evs |}.

(** The calls a client can make on an [AIScribe]. *)
Inductive Call :=
| CallProcess (input_data task target_language : string)
| CallTranscribe (audio_file_path : string)
| CallSummarize (text : string)
| CallTranslate (text target_language : string).

Definition run_call (B : Backends) (c : Call) : M PyVal :=
  match c with
  | CallProcess input_data task target_language =>
      process B input_data task target_language
  | CallTranscribe audio_file_path => transcribe_audio B audio_file_path
  | CallSummarize text => summarize_text B text
  | CallTranslate text target_language => translate_text B text target_language
  end.

(** A client that makes the calls [cs] one after the other, whatever each
    returns or raises; the result is the outcome and the state after each
    call. *)
Fixpoint run_calls (B : Backends) (cs : list Call) (st : State)
  : list (Outcome PyVal * State) :=
  match cs with
  | [] => []
  | c :: cs' =>
      let r := run_call B c st in
      r :: run_calls B cs' (snd r)
  end.

(** The state before [__init__]: no attribute, nothing observed. *)
Definition fresh : State := {| attrs := ∅; trace := [] |}.

(** The attributes [__init__] leaves behind when both models load. *)
Definition scribe_attrs (summary_model_name translation_model_name : string)
  : gmap string PyObj :=
  <["translation_model" := OPipeline "translation" translation_model_name]>
    (<["summary_model" := OPipeline "summarization" summary_model_name]>
       (<["recognizer" := ORecognizer]> ∅)).

(** An [AIScribe()] built with the default model names, trace cleared. *)
Definition scribe : State :=
  {| attrs := scribe_attrs "facebook/bart-large-cnn" "Helsinki-NLP/opus-mt-en-fr";
     trace := [] |}.

(** Stub backends: every audio file opens, speech is recognised, the
    translation pipeline answers in French and the summarization pipeline
    with a fixed sentence. *)
Definition stub_pipeline (task model text : string) (kwargs : list (string * KwVal))
  : PyExc + list (gmap string string) :=
  if (task =? "translation")%string
  then inr [ {[ "translation_text" := "Bonjour, comment ça va?" ]} ]
  else inr [ {[ "summary_text" := "A fox jumps over a dog." ]} ].

Definition stub : Backends :=
  {| transformers_pipeline := fun _ _ => None;
     AudioFile_enter := fun path => inr {| source_path := path; stream := [] |};
     Recognizer_record := fun source => inr {| frame_data := stream source |};
     Recognizer_recognize_google := fun _ => inr "hello world";
     Pipeline_call := stub_pipeline |}.

(** The recognizer cannot understand the audio. *)
Definition unintelligible : Backends :=
  {| transformers_pipeline := transformers_pipeline stub;
     AudioFile_enter := AudioFile_enter stub;
     Recognizer_record := Recognizer_record stub;
     Recognizer_recognize_google := fun _ => inl UnknownValueError;
     Pipeline_call := Pipeline_call stub |}.

(** The recognition service cannot be reached. *)
Definition offline : Backends :=
  {| transformers_pipeline := transformers_pipeline stub;
     AudioFile_enter := AudioFile_enter stub;
     Recognizer_record := Recognizer_record stub;
     Recognizer_recognize_google := fun _ => inl (RequestError "connection failed");
     Pipeline_call := Pipeline_call stub |}.

(** No audio file exists. *)
Definition missing_file : Backends :=
  {| transformers_pipeline := transformers_pipeline stub;
     AudioFile_enter := fun _ => inl FileNotFoundError;
     Recognizer_record := Recognizer_record stub;
     Recognizer_recognize_google := Recognizer_recognize_google stub;
     Pipeline_call := Pipeline_call stub |}.

(** The models cannot run. *)
Definition models_down : Backends :=
  {| transformers_pipeline := transformers_pipeline stub;
     AudioFile_enter := AudioFile_enter stub;
     Recognizer_record := Recognizer_record stub;
     Recognizer_recognize_google := Recognizer_recognize_google stub;
     Pipeline_call := fun _ _ _ _ => inl (OtherError "RuntimeError" "out of memory") |}.

(** The audio file exists but is in no format [sr.AudioFile] reads. *)
Definition unreadable : Backends :=
  {| transformers_pipeline := transformers_pipeline stub;
     AudioFile_enter := fun _ =>
       inl (OtherError "ValueError" "Audio file could not be read");
     Recognizer_record := Recognizer_record stub;
     Recognizer_recognize_google := Recognizer_recognize_google stub;
     Pipeline_call := Pipeline_call stub |}.


(** ** The example script at the end of [scribe.py] *)

(** The newline character of a Python string. *)
Definition LF : string := String "010"%char EmptyString.

(** The triple-quoted [sample_text]: it opens with a newline, both lines
    are indented by four spaces, the first ends in a space, and the
    indentation of the closing quotes is part of the text. *)
Definition sample_text : string :=
  LF +:+ "    The quick brown fox jumps over the lazy dog. This is a sample text that needs to be summarized. It has a lot of information that is not very useful. "
  +:+ LF +:+ "    We want to condense this text into a shorter, more concise version that captures the main points."
  +:+ LF +:+ "    ".

(** The truth value of a returned value in [if v:]: [None] and the empty
    string are false. *)
Definition truthy (v : PyVal) : bool :=
  match v with
  | VNone => false
  | VStr EmptyString => false
  | VStr (String _ _) => true
  end.

(** [str(v)], as [print] shows a value. *)
Definition str (v : PyVal) : string :=
  match v with
  | VNone => "None"
  | VStr s => s
  end.

(** [print(label, v)]: the two arguments separated by one space. *)
Definition print2 (label : string) (v : PyVal) : M unit :=
  print (label +:+ " " +:+ str v).

(** The body of [if __name__ == "__main__":]. *)
Definition main (B : Backends) : M unit :=
  AIScribe_new B None None ;;
  transcribed_text <- process_call B "example.wav" (Some "transcribe") None ;;
  (if truthy transcribed_text
   then print2 "Transcribed Text:" transcribed_text
   else ret tt) ;;
  summary <- process_call B sample_text (Some "summarize") None ;;
  print2 (LF +:+ "Summary:") summary ;;
  translation <- process_call B "Hello, how are you?" (Some "translate") None ;;
  print2 (LF +:+ "Translation:") translation.

(** The state a client is in after the calls [cs]. *)
Fixpoint state_after (B : Backends) (cs : list Call) (st : State) : State :=
  match cs with
  | [] => st
  | c :: cs' => state_after B cs' (snd (run_call B c st))
  end.

(** ** Kinds of events *)

Definition is_audio_event (ev : Event) : bool :=
  match ev with
  | EvAudioOpen _ | EvAudioClose _ | EvRecord _ | EvRecognizeGoogle _ => true
  | _ => false
  end.

Definition is_recognizer_call (ev : Event) : bool :=
  match ev with
  | EvRecord _ | EvRecognizeGoogle _ => true
  | _ => false
  end.

Definition is_pipeline_call (ev : Event) : bool :=
  match ev with
  | EvPipelineCall _ _ _ _ => true
  | _ => false
  end.

Definition is_print (ev : Event) : bool :=
  match ev with
  | EvPrint _ => true
  | _ => false
  end.

Definition is_load (ev : Event) : bool :=
  match ev with
  | EvLoadPipeline _ _ => true
  | _ => false
  end.

Definition is_translation_call (ev : Event) : bool :=
  match ev with
  | EvPipelineCall task _ _ _ => (task =? "translation")%string
  | _ => false
  end.

(** The kinds of events of each capability. *)
Definition audio_or_print (ev : Event) : Prop := is_audio_event ev || is_print ev = true.
Definition pipeline_or_print (ev : Event) : Prop :=
  is_pipeline_call ev || is_print ev = true.
Definition not_a_load (ev : Event) : Prop := is_load ev = false.

(** A computation that never returns [None]. *)
Definition never_None (m : M PyVal) : Prop :=
  forall st, fst (m st) <> Return VNone.

(** ** More concrete worlds *)

(** No model can be downloaded. *)
Definition no_network : Backends :=
  {| transformers_pipeline := fun _ _ => Some (OtherError "OSError" "cannot reach the hub");
     AudioFile_enter := AudioFile_enter stub;
     Recognizer_record := Recognizer_record stub;
     Recognizer_recognize_google := Recognizer_recognize_google stub;
     Pipeline_call := Pipeline_call stub |}.

(** The summarization model loads, the translation model does not. *)
Definition translation_unavailable : Backends :=
  {| transformers_pipeline := fun task _ =>
       if (task =? "translation")%string
       then Some (OtherError "OSError" "cannot reach the hub")
       else None;
     AudioFile_enter := AudioFile_enter stub;
     Recognizer_record := Recognizer_record stub;
     Recognizer_recognize_google := Recognizer_recognize_google stub;
     Pipeline_call := Pipeline_call stub |}.

(** The pipelines answer with an empty list. *)
Definition empty_answers : Backends :=
  {| transformers_pipeline := transformers_pipeline stub;
     AudioFile_enter := AudioFile_enter stub;
     Recognizer_record := Recognizer_record stub;
     Recognizer_recognize_google := Recognizer_recognize_google stub;
     Pipeline_call := fun _ _ _ _ => inr [] |}.

(** The pipelines answer under the key ["generated_text"]. *)
Definition other_key : Backends :=
  {| transformers_pipeline := transformers_pipeline stub;
     AudioFile_enter := AudioFile_enter stub;
     Recognizer_record := Recognizer_record stub;
     Recognizer_recognize_google := Recognizer_recognize_google stub;
     Pipeline_call := fun _ _ _ _ => inr [ {[ "generated_text" := "text" ]} ] |}.

(** The recognizer hears nothing: it returns the empty transcript. *)
Definition silence : Backends :=
  {| transformers_pipeline := transformers_pipeline stub;
     AudioFile_enter := AudioFile_enter stub;
     Recognizer_record := Recognizer_record stub;
     Recognizer_recognize_google := fun _ => inr EmptyString;
     Pipeline_call := Pipeline_call stub |}.

(** The state of the example script once [AIScribe()] has returned. *)
Definition script_start : State :=
  {| attrs := scribe_attrs "facebook/bart-large-cnn" "Helsinki-NLP/opus-mt-en-fr";
     trace := [EvLoadPipeline "summarization" "facebook/bart-large-cnn";
               EvLoadPipeline "translation" "Helsinki-NLP/opus-mt-en-fr"] |}.

(** A computation that reads nothing of the state but the attributes of
    [self], leaves them alone, and appends only events satisfying [P]: run
    from two states with the same attributes, it has the same outcome and
    appends the same events. *)
Definition confined {A : Type} (P : Event -> Prop) (m : M A) : Prop :=
  forall st st',
    attrs st = attrs st' ->
    exists o d, m st = (o, log st d) /\ m st' = (o, log st' d) /\ Forall P d.

(** ** The pipeline runner *)

Module PipelineRunner.

(** Modelled from the spec: the request, result and error types of the
    dispatcher that the pipeline runner chains (data model and error
    taxonomy); [scribe.py] has no such types. *)
Inductive TaskKind := Transcribe | Summarize | Translate.

(** Modelled from the spec: the capability-specific options of a request
    (none for Transcribe, length bounds for Summarize, a target language
    for Translate). *)
Inductive TaskParameters :=
| NoParameters
| LengthBounds (min max : nat)
| TargetLanguage (code : string).

(** Modelled from the spec: the input of a request, an audio handle or a
    text blob. *)
Inductive Input :=
| AudioHandle (ref : string)
| TextBlob (text : string).

(** Modelled from the spec: the error taxonomy of the dispatcher. *)
Inductive ProcessingError :=
| InvalidInput
| UnsupportedCapability
| UnsupportedLanguage
| ResourceUnavailable
| Unrecognized
| InputTooShort
| BackendUnavailable (cause : string).

(** Modelled from the spec: the request handed to the dispatcher. *)
Record ProcessingRequest :=
  { input : Input; task : TaskKind; parameters : TaskParameters }.

(** Modelled from the spec: the successful result of the dispatcher. *)
Record ProcessingResult :=
  { result_task : TaskKind; output : string; metadata : list (string * string) }.

(** Modelled from the spec: what a run hands back: the successful results
    in order and the error that ended it (if any). *)
Record RunResult :=
  { results : list ProcessingResult;
    error : option ProcessingError }.

Definition Step : Type := TaskKind * TaskParameters.

Definition request_of (current : Input) (step : Step) : ProcessingRequest :=
  {| input := current; task := fst step; parameters := snd step |}.

(** The input of the step that follows the results [rs]: the output
    text of the last one, or the initial input when there is none. *)
Definition next_input (initialInput : Input) (rs : list ProcessingResult) : Input :=
  match last rs with
  | Some r => TextBlob (output r)
  | None => initialInput
  end.

Section Runner.

(** The dispatcher is a collaborator with effects of its own (provider
    calls): it runs in a world [W] that each of its invocations may
    change, so that whether it was invoked shows in the world and not in
    anything the runner writes down. *)
Context {W : Type}.

Variable dispatch : ProcessingRequest -> W -> (ProcessingError + ProcessingResult) * W.

(** Modelled from the spec: the pipeline runner
    [run(initialInput, steps)], which the repository does not have
    ([scribe.py] only has the single-task [process]).  Each step is
    dispatched on the output text of the previous one; the first error
    ends the run, which returns the results so far and that error. *)
Fixpoint run (initialInput : Input) (steps : list Step) (w : W) : RunResult * W :=
  match steps with
  | [] => ({| results := []; error := None |}, w)
  | step :: rest =>
      match dispatch (request_of initialInput step) w with
      | (inl e, w') => ({| results := []; error := Some e |}, w')
      | (inr r, w') =>
          match run (TextBlob (output r)) rest w' with
          | (tail, w'') =>
              ({| results := r :: results tail; error := error tail |}, w'')
          end
      end
  end.

(** What the dispatcher answers, independently of any runner:
    [succeeds input w steps rs w'] when, invoked on the steps in order,
    the first on [input] in the world [w] and each next one on the output
    text of the previous answer in the world the previous invocation left,
    the dispatcher answers with the results [rs] and leaves the world
    [w']. *)
Inductive succeeds : Input -> W -> list Step -> list ProcessingResult -> W -> Prop :=
| succeeds_nil (current : Input) (w : W) : succeeds current w [] [] w
| succeeds_cons (current : Input) (w w1 w' : W) (step : Step) (rest : list Step)
    (r : ProcessingResult) (rs : list ProcessingResult) :
    dispatch (request_of current step) w = (inr r, w1) ->
    succeeds (TextBlob (output r)) w1 rest rs w' ->
    succeeds current w (step :: rest) (r :: rs) w'.

End Runner.

(** A stub dispatcher that records the requests it receives:
    transcription and translation succeed, summarization finds its input
    too short. *)
Definition stub_dispatch (request : ProcessingRequest)
    (received : list ProcessingRequest)
  : (ProcessingError + ProcessingResult) * list ProcessingRequest :=
  (match task request with
   | Transcribe =>
       inr {| result_task := Transcribe; output := "hello world"; metadata := [] |}
   | Summarize => inl InputTooShort
   | Translate =>
       inr {| result_task := Translate; output := "bonjour le monde"; metadata := [] |}
   end,
   received ++ [request]).

(** Transcribe, then summarize, then translate. *)
Definition three_steps : list Step :=
  [(Transcribe, NoParameters); (Summarize, LengthBounds 20 60);
   (Translate, TargetLanguage "fr")].

End PipelineRunner.

(** ** Reading the outcome of a backend call *)

(** What [out[0][key]] evaluates to on the answer [r] of a pipeline. *)
Definition result_text (key : string) (r : PyExc + list (gmap string string))
  : Outcome PyVal :=
  match r with
  | inl e => Raise e
  | inr out =>
      match out !! 0%nat with
      | None => Raise IndexError
      | Some d =>
          match d !! key with
          | None => Raise (KeyError key)
          | Some s => Return (VStr s)
          end
      end
  end.

(** The line printed by the [except] clause of [transcribe_audio] that
    matches [e], if one does. *)
Definition except_line (audio_file_path : string) (e : PyExc) : option string :=
  match e with
  | UnknownValueError => Some "Speech recognition could not understand audio"
  | RequestError msg =>
      Some ("Could not request results from Google Speech Recognition service; " +:+ msg)
  | FileNotFoundError => Some ("File not found: " +:+ audio_file_path)
  | _ => None
  end.

(** The outcome of [transcribe_audio] when its [try] block raises [e] in
    the state [st]. *)
Definition handled (audio_file_path : string) (e : PyExc) (st : State)
  : Outcome PyVal * State :=
  match except_line audio_file_path e with
  | Some line => (Return VNone, log st [EvPrint line])
  | None => (Raise e, st)
  end.

(** The summarization keyword arguments of [summarize_text]. *)
Definition summary_kwargs : list (string * KwVal) :=
  [("max_length", KInt 150); ("min_length", KInt 30); ("do_sample", KBool false)].

(** A computation that leaves the attributes of [self] alone and only
    appends to the trace. *)
Definition read_only {A : Type} (m : M A) : Prop :=
  forall st, exists evs, snd (m st) = log st evs.

(** ** Basic facts about states and the monad *)

Lemma log_nil (st : State) : log st [] = st.
Proof. destruct st as [a t]. unfold log. simpl. by rewrite app_nil_r. Qed.

Lemma log_log (st : State) (evs evs' : list Event) :
  log (log st evs) evs' = log st (evs ++ evs').
Proof. unfold log. simpl. by rewrite app_assoc. Qed.

Lemma attrs_log (st : State) (evs : list Event) : attrs (log st evs) = attrs st.
Proof. reflexivity. Qed.

Lemma trace_log (st : State) (evs : list Event) :
  trace (log st evs) = trace st ++ evs.
Proof. reflexivity. Qed.

Lemma emit_log (ev : Event) (st : State) : emit ev st = (Return tt, log st [ev]).
Proof. reflexivity. Qed.

Lemma getattr_Some (name : string) (o : PyObj) (st : State) :
  attrs st !! name = Some o -> getattr name st = (Return o, st).
Proof. intros H. unfold getattr. by rewrite H. Qed.

Section ReadOnly.

Context {A B : Type}.

Lemma read_only_ret (a : A) : read_only (ret a).
Proof. intros st. exists []. simpl. by rewrite log_nil. Qed.

Lemma read_only_raise (e : PyExc) : read_only (@raise A e).
Proof. intros st. exists []. simpl. by rewrite log_nil. Qed.

Lemma read_only_lift (r : PyExc + A) : read_only (lift r).
Proof. destruct r; [apply read_only_raise | apply read_only_ret]. Qed.

Lemma read_only_bind (m : M A) (k : A -> M B) :
  read_only m -> (forall a, read_only (k a)) -> read_only (bind m k).
Proof.
  intros Hm Hk st. unfold bind.
  destruct (Hm st) as [evs Hevs].
  destruct (m st) as [[a | e] st']; simpl in Hevs; subst st'.
  - destruct (Hk a (log st evs)) as [evs' Hevs'].
    exists (evs ++ evs'). by rewrite Hevs', log_log.
  - by exists evs.
Qed.

Lemma read_only_try_except (body : M A) (handler : PyExc -> option (M A)) :
  read_only body ->
  (forall e h, handler e = Some h -> read_only h) ->
  read_only (try_except body handler).
Proof.
  intros Hb Hh st. unfold try_except.
  destruct (Hb st) as [evs Hevs].
  destruct (body st) as [[a | e] st']; simpl in Hevs; subst st'.
  - by exists evs.
  - destruct (handler e) as [h |] eqn:He.
    + destruct (Hh e h He (log st evs)) as [evs' Hevs'].
      exists (evs ++ evs'). by rewrite Hevs', log_log.
    + by exists evs.
Qed.

Lemma read_only_finally (body : M A) (cleanup : M unit) :
  read_only body -> read_only cleanup -> read_only (finally body cleanup).
Proof.
  intros Hb Hc st. unfold finally.
  destruct (Hb st) as [evs Hevs].
  destruct (body st) as [r st']; simpl in Hevs; subst st'.
  destruct (Hc (log st evs)) as [evs' Hevs'].
  destruct (cleanup (log st evs)) as [[u | e] st'']; simpl in Hevs'; subst st'';
    exists (evs ++ evs'); simpl; by rewrite log_log.
Qed.

End ReadOnly.

Lemma read_only_emit (ev : Event) : read_only (emit ev).
Proof. intros st. by exists [ev]. Qed.

Lemma read_only_getattr (name : string) : read_only (getattr name).
Proof.
  intros st. exists []. unfold getattr.
  destruct (attrs st !! name); simpl; by rewrite log_nil.
Qed.

Lemma read_only_index0 {A : Type} (l : list A) : read_only (index0 l).
Proof.
  unfold index0. destruct (l !! 0%nat); [apply read_only_ret | apply read_only_raise].
Qed.

Lemma read_only_subscript (d : gmap string string) (key : string) :
  read_only (subscript d key).
Proof.
  unfold subscript. destruct (d !! key); [apply read_only_ret | apply read_only_raise].
Qed.

Create HintDb frame.
#[export] Hint Resolve read_only_ret read_only_raise read_only_lift read_only_emit
  read_only_getattr read_only_index0 read_only_subscript : frame.

Ltac frame :=
  repeat first
    [ apply read_only_bind; [| intros ? ]
    | apply read_only_finally
    | progress auto with frame ].

(** ** The methods read the attributes and extend the trace *)

Section Methods.

Variable B : Backends.

Lemma read_only_record (r : PyObj) (source : AudioSource) :
  read_only (record B r source).
Proof. destruct r; simpl; frame. Qed.

Lemma read_only_recognize_google (r : PyObj) (audio_data : AudioData) :
  read_only (recognize_google B r audio_data).
Proof. destruct r; simpl; frame. Qed.

Lemma read_only_call (p : PyObj) (text : string) (kwargs : list (string * KwVal)) :
  read_only (call B p text kwargs).
Proof. destruct p; simpl; frame. Qed.

#[local] Hint Resolve read_only_record read_only_recognize_google read_only_call : frame.

Lemma read_only_transcribe_audio (audio_file_path : string) :
  read_only (transcribe_audio B audio_file_path).
Proof.
  unfold transcribe_audio, transcribe_try, with_AudioFile.
  apply read_only_try_except.
  - frame.
  - intros e h He. unfold transcribe_except, print in He.
    destruct e; simplify_eq; frame.
Qed.

Lemma read_only_summarize_text (text : string) : read_only (summarize_text B text).
Proof. unfold summarize_text. frame. Qed.

Lemma read_only_translate_text (text target_language : string) :
  read_only (translate_text B text target_language).
Proof.
  unfold translate_text, print. destruct (target_language =? "fr")%string; frame.
Qed.

Lemma read_only_process (input_data task target_language : string) :
  read_only (process B input_data task target_language).
Proof.
  unfold process.
  destruct (task =? "transcribe")%string; [apply read_only_transcribe_audio |].
  destruct (task =? "summarize")%string; [apply read_only_summarize_text |].
  destruct (task =? "translate")%string; [apply read_only_translate_text |].
  apply read_only_ret.
Qed.

Lemma read_only_run_call (c : Call) : read_only (run_call B c).
Proof.
  destruct c; simpl.
  - apply read_only_process.
  - apply read_only_transcribe_audio.
  - apply read_only_summarize_text.
  - apply read_only_translate_text.
Qed.

(** *** What each method computes *)

Lemma summarize_text_eq (text task model : string) (st : State) :
  attrs st !! "summary_model" = Some (OPipeline task model) ->
  summarize_text B text st =
    (result_text "summary_text" (Pipeline_call B task model text summary_kwargs),
     log st [EvPipelineCall task model text summary_kwargs]).
Proof.
  intros Hm. unfold summarize_text, bind. rewrite (getattr_Some _ _ _ Hm).
  unfold call, bind. rewrite emit_log. fold summary_kwargs.
  destruct (Pipeline_call B task model text summary_kwargs) as [e | out]; simpl; [done |].
  unfold index0. destruct (out !! 0%nat) as [d |]; simpl; [| done].
  unfold subscript. by destruct (d !! "summary_text").
Qed.

Lemma translate_text_fr_eq (text task model : string) (st : State) :
  attrs st !! "translation_model" = Some (OPipeline task model) ->
  translate_text B text "fr" st =
    (result_text "translation_text" (Pipeline_call B task model text []),
     log st [EvPipelineCall task model text []]).
Proof.
  intros Hm. unfold translate_text. simpl. unfold bind. rewrite (getattr_Some _ _ _ Hm).
  unfold call, bind. rewrite emit_log.
  destruct (Pipeline_call B task model text []) as [e | out]; simpl; [done |].
  unfold index0. destruct (out !! 0%nat) as [d |]; simpl; [| done].
  unfold subscript. by destruct (d !! "translation_text").
Qed.

Lemma translate_text_other (text target_language : string) (st : State) :
  target_language <> "fr" ->
  translate_text B text target_language st =
    (Return (VStr "Target language not supported"),
     log st [EvPrint "Target language not currently supported. Only French is supported"]).
Proof.
  intros Hne. unfold translate_text.
  apply String.eqb_neq in Hne. rewrite Hne. reflexivity.
Qed.

Lemma record_eq (source : AudioSource) (st : State) :
  record B ORecognizer source st =
    (match Recognizer_record B source with
     | inl e => Raise e
     | inr audio_data => Return audio_data
     end, log st [EvRecord source]).
Proof.
  unfold record, bind. rewrite emit_log.
  by destruct (Recognizer_record B source).
Qed.

Lemma recognize_google_eq (audio_data : AudioData) (st : State) :
  recognize_google B ORecognizer audio_data st =
    (match Recognizer_recognize_google B audio_data with
     | inl e => Raise e
     | inr text => Return text
     end, log st [EvRecognizeGoogle audio_data]).
Proof.
  unfold recognize_google, bind. rewrite emit_log.
  by destruct (Recognizer_recognize_google B audio_data).
Qed.

Lemma transcribe_except_eq (audio_file_path : string) (e : PyExc) (st : State) :
  match transcribe_except audio_file_path e with
  | Some h => h st
  | None => (Raise e, st)
  end = handled audio_file_path e st.
Proof. by destruct e. Qed.

Lemma transcribe_try_eq (audio_file_path : string) (st : State) :
  attrs st !! "recognizer" = Some ORecognizer ->
  transcribe_try B audio_file_path st =
    match AudioFile_enter B audio_file_path with
    | inl e => (Raise e, log st [EvAudioOpen audio_file_path])
    | inr source =>
        match Recognizer_record B source with
        | inl e =>
            (Raise e,
             log st [EvAudioOpen audio_file_path; EvRecord source;
                     EvAudioClose audio_file_path])
        | inr audio_data =>
            (match Recognizer_recognize_google B audio_data with
             | inl e => Raise e
             | inr text => Return (VStr text)
             end,
             log st [EvAudioOpen audio_file_path; EvRecord source;
                     EvRecognizeGoogle audio_data;
                     EvAudioClose audio_file_path])
        end
    end.
Proof.
  intros Hr. unfold transcribe_try, with_AudioFile, bind at 1 2.
  rewrite emit_log.
  destruct (AudioFile_enter B audio_file_path) as [e | source]; simpl; [done |].
  unfold finally, bind.
  rewrite (getattr_Some "recognizer" ORecognizer) by done.
  rewrite record_eq.
  destruct (Recognizer_record B source) as [e | audio_data].
  { cbv beta iota. by rewrite emit_log, !log_log. }
  rewrite (getattr_Some "recognizer" ORecognizer) by done.
  rewrite recognize_google_eq.
  destruct (Recognizer_recognize_google B audio_data) as [e | text];
    unfold ret; cbv beta iota; by rewrite emit_log, !log_log.
Qed.

(** The three backend calls of [transcribe_audio] in order, the [with]
    block closing the file on every path that opened it, and the
    [except] clauses applied to whatever was raised. *)
Lemma transcribe_audio_eq (audio_file_path : string) (st : State) :
  attrs st !! "recognizer" = Some ORecognizer ->
  transcribe_audio B audio_file_path st =
    match AudioFile_enter B audio_file_path with
    | inl e => handled audio_file_path e (log st [EvAudioOpen audio_file_path])
    | inr source =>
        match Recognizer_record B source with
        | inl e =>
            handled audio_file_path e
              (log st [EvAudioOpen audio_file_path; EvRecord source;
                       EvAudioClose audio_file_path])
        | inr audio_data =>
            match Recognizer_recognize_google B audio_data with
            | inl e =>
                handled audio_file_path e
                  (log st [EvAudioOpen audio_file_path; EvRecord source;
                           EvRecognizeGoogle audio_data;
                           EvAudioClose audio_file_path])
            | inr text =>
                (Return (VStr text),
                 log st [EvAudioOpen audio_file_path; EvRecord source;
                         EvRecognizeGoogle audio_data;
                         EvAudioClose audio_file_path])
            end
        end
    end.
Proof.
  intros Hr. unfold transcribe_audio, try_except.
  rewrite (transcribe_try_eq _ _ Hr).
  destruct (AudioFile_enter B audio_file_path) as [e | source];
    [apply transcribe_except_eq |].
  destruct (Recognizer_record B source) as [e | audio_data];
    [apply transcribe_except_eq |].
  destruct (Recognizer_recognize_google B audio_data) as [e | text];
    [apply transcribe_except_eq | reflexivity].
Qed.

Lemma process_transcribe (input_data target_language : string) :
  process B input_data "transcribe" target_language = transcribe_audio B input_data.
Proof. reflexivity. Qed.

Lemma process_summarize (input_data target_language : string) :
  process B input_data "summarize" target_language = summarize_text B input_data.
Proof. reflexivity. Qed.

Lemma process_translate (input_data target_language : string) :
  process B input_data "translate" target_language =
    translate_text B input_data target_language.
Proof. reflexivity. Qed.

Lemma process_unknown (input_data task target_language : string) :
  task <> "transcribe" -> task <> "summarize" -> task <> "translate" ->
  process B input_data task target_language = ret (VStr "Invalid task.").
Proof.
  intros H1 H2 H3. unfold process.
  apply String.eqb_neq in H1, H2, H3. by rewrite H1, H2, H3.
Qed.

End Methods.

(** ** The object built by [__init__] *)

Lemma scribe_attrs_recognizer (sn tn : string) :
  scribe_attrs sn tn !! "recognizer" = Some ORecognizer.
Proof.
  unfold scribe_attrs.
  rewrite lookup_insert_ne by done. rewrite lookup_insert_ne by done.
  apply lookup_insert_eq.
Qed.

Lemma scribe_attrs_summary_model (sn tn : string) :
  scribe_attrs sn tn !! "summary_model" = Some (OPipeline "summarization" sn).
Proof.
  unfold scribe_attrs. rewrite lookup_insert_ne by done. apply lookup_insert_eq.
Qed.

Lemma scribe_attrs_translation_model (sn tn : string) :
  scribe_attrs sn tn !! "translation_model" = Some (OPipeline "translation" tn).
Proof. unfold scribe_attrs. apply lookup_insert_eq. Qed.

(** When both models load, [__init__] assigns the three attributes, in the
    order of the source, on top of whatever the object had. *)
Lemma init_builds_registry (B : Backends) (sn tn : string) (st : State) :
  transformers_pipeline B "summarization" sn = None ->
  transformers_pipeline B "translation" tn = None ->
  __init__ B sn tn st =
    (Return tt,
     {| attrs :=
          <["translation_model" := OPipeline "translation" tn]>
            (<["summary_model" := OPipeline "summarization" sn]>
               (<["recognizer" := ORecognizer]> (attrs st)));
        trace := trace st ++ [EvLoadPipeline "summarization" sn;
                              EvLoadPipeline "translation" tn] |}).
Proof.
  intros Hs Ht. unfold __init__, new_pipeline, bind, sr_Recognizer, setattr, emit, ret.
  simpl. rewrite Hs, Ht. simpl. by rewrite <- app_assoc.
Qed.

Lemma init_fresh (B : Backends) (sn tn : string) :
  transformers_pipeline B "summarization" sn = None ->
  transformers_pipeline B "translation" tn = None ->
  attrs (snd (__init__ B sn tn fresh)) = scribe_attrs sn tn.
Proof. intros Hs Ht. by rewrite init_builds_registry. Qed.

(** * The dispatcher [process] *)

(** ** Translation *)

(** C1 (counterexample): translating to the unsupported language ["de"]
    does not fail: [process] returns the ordinary string
    ["Target language not supported"], and no exception is raised. *)
Lemma translate_unsupported_is_not_a_failure :
  fst (process stub "Hello, how are you?" "translate" "de" scribe)
    = Return (VStr "Target language not supported")
  /\ is_failure (fst (process stub "Hello, how are you?" "translate" "de" scribe)) = false.
Proof. split; reflexivity. Qed.

(** C1 (amended): on an initialised [AIScribe], a translate request with
    target language ["fr"] calls the translation pipeline once on the text
    and returns the [translation_text] of its first answer; a translate
    request with any other target language never calls the pipeline: it
    prints one line and returns the ordinary string
    ["Target language not supported"]. *)
Theorem translate_dispatch (B : Backends) (text sn tn : string) (st : State) :
  attrs st = scribe_attrs sn tn ->
  (forall d rest translated,
      Pipeline_call B "translation" tn text [] = inr (d :: rest) ->
      d !! "translation_text" = Some translated ->
      process B text "translate" "fr" st =
        (Return (VStr translated), log st [EvPipelineCall "translation" tn text []]))
  /\ (forall target_language,
      target_language <> "fr" ->
      process B text "translate" target_language st =
        (Return (VStr "Target language not supported"),
         log st [EvPrint "Target language not currently supported. Only French is supported"])).
Proof.
  intros Hst. split.
  - intros d rest translated Hcall Hd.
    rewrite process_translate.
    rewrite (translate_text_fr_eq B text "translation" tn).
    + rewrite Hcall. simpl. by rewrite Hd.
    + rewrite Hst. apply scribe_attrs_translation_model.
  - intros target_language Hne.
    rewrite process_translate. by apply translate_text_other.
Qed.

Lemma translate_dispatch_witness :
  process stub "Hello, how are you?" "translate" "fr" scribe =
    (Return (VStr "Bonjour, comment ça va?"),
     log scribe [EvPipelineCall "translation" "Helsinki-NLP/opus-mt-en-fr"
                   "Hello, how are you?" []])
  /\ process stub "Hello, how are you?" "translate" "de" scribe =
    (Return (VStr "Target language not supported"),
     log scribe [EvPrint "Target language not currently supported. Only French is supported"]).
Proof.
  destruct (translate_dispatch stub "Hello, how are you?"
              "facebook/bart-large-cnn" "Helsinki-NLP/opus-mt-en-fr" scribe)
    as [Hfr Hother].
  - reflexivity.
  - split.
    + apply (Hfr {[ "translation_text" := "Bonjour, comment ça va?" ]} []);
        reflexivity.
    + apply Hother. discriminate.
Defined.

(** ** Failures *)

(** C2 (counterexample): three failing capabilities whose failure
    [process] reports as an ordinary return value: unintelligible speech
    gives [None], an unsupported language and an unknown task give a text
    string. *)
Lemma failures_returned_as_values :
  Recognizer_recognize_google unintelligible {| frame_data := [] |} = inl UnknownValueError
  /\ fst (process unintelligible "lecture.wav" "transcribe" "fr" scribe) = Return VNone
  /\ fst (process stub "Hello" "translate" "es" scribe)
       = Return (VStr "Target language not supported")
  /\ fst (process stub "Hello" "paraphrase" "fr" scribe) = Return (VStr "Invalid task.")
  /\ is_failure (fst (process unintelligible "lecture.wav" "transcribe" "fr" scribe)) = false.
Proof. repeat split; reflexivity. Qed.

(** C2 (amended): on an initialised [AIScribe], when the [try] block of
    [transcribe_audio] raises [UnknownValueError], [RequestError] or
    [FileNotFoundError], [process] prints the line of the matching
    [except] clause and returns [None]; any other exception of that block,
    and any exception of the summarization or translation pipeline, is
    raised to the caller; an unsupported target language prints a line and
    returns the string ["Target language not supported"], and an unknown
    task returns the string ["Invalid task."] and prints nothing. *)
Theorem failure_outcomes (B : Backends) (input_data target_language sn tn : string)
    (st : State) :
  attrs st = scribe_attrs sn tn ->
  (forall st',
      transcribe_try B input_data st = (Raise UnknownValueError, st') ->
      process B input_data "transcribe" target_language st =
        (Return VNone,
         log st' [EvPrint "Speech recognition could not understand audio"]))
  /\ (forall msg st',
      transcribe_try B input_data st = (Raise (RequestError msg), st') ->
      process B input_data "transcribe" target_language st =
        (Return VNone,
         log st' [EvPrint ("Could not request results from Google Speech Recognition service; "
                           +:+ msg)]))
  /\ (forall st',
      transcribe_try B input_data st = (Raise FileNotFoundError, st') ->
      process B input_data "transcribe" target_language st =
        (Return VNone, log st' [EvPrint ("File not found: " +:+ input_data)]))
  /\ (forall e st',
      transcribe_try B input_data st = (Raise e, st') ->
      e <> UnknownValueError -> (forall msg, e <> RequestError msg) ->
      e <> FileNotFoundError ->
      process B input_data "transcribe" target_language st = (Raise e, st'))
  /\ (forall e,
      Pipeline_call B "summarization" sn input_data summary_kwargs = inl e ->
      process B input_data "summarize" target_language st =
        (Raise e, log st [EvPipelineCall "summarization" sn input_data summary_kwargs]))
  /\ (forall e,
      Pipeline_call B "translation" tn input_data [] = inl e ->
      process B input_data "translate" "fr" st =
        (Raise e, log st [EvPipelineCall "translation" tn input_data []]))
  /\ (target_language <> "fr" ->
      process B input_data "translate" target_language st =
        (Return (VStr "Target language not supported"),
         log st [EvPrint "Target language not currently supported. Only French is supported"]))
  /\ (forall task,
      task <> "transcribe" -> task <> "summarize" -> task <> "translate" ->
      process B input_data task target_language st =
        (Return (VStr "Invalid task."), st)).
Proof.
  intros Hst.
  assert (Hcaught : forall e st',
    transcribe_try B input_data st = (Raise e, st') ->
    process B input_data "transcribe" target_language st = handled input_data e st').
  { intros e st' Htry.
    rewrite process_transcribe. unfold transcribe_audio, try_except. rewrite Htry.
    apply transcribe_except_eq. }
  split_and!.
  - intros st' Htry. by rewrite (Hcaught _ _ Htry).
  - intros msg st' Htry. by rewrite (Hcaught _ _ Htry).
  - intros st' Htry. by rewrite (Hcaught _ _ Htry).
  - intros e st' Htry H1 H2 H3.
    rewrite (Hcaught _ _ Htry). unfold handled.
    destruct e; simpl; try reflexivity; try congruence;
      by destruct (H2 msg).
  - intros e Hcall.
    rewrite process_summarize.
    rewrite (summarize_text_eq B input_data "summarization" sn)
      by (rewrite Hst; apply scribe_attrs_summary_model).
    by rewrite Hcall.
  - intros e Hcall.
    rewrite process_translate.
    rewrite (translate_text_fr_eq B input_data "translation" tn)
      by (rewrite Hst; apply scribe_attrs_translation_model).
    by rewrite Hcall.
  - intros Hne. rewrite process_translate. by rewrite translate_text_other.
  - intros task H1 H2 H3. by rewrite process_unknown.
Qed.

Lemma failure_outcomes_witness :
  process unintelligible "lecture.wav" "transcribe" "de" scribe =
    (Return VNone,
     log scribe [EvAudioOpen "lecture.wav";
                 EvRecord {| source_path := "lecture.wav"; stream := [] |};
                 EvRecognizeGoogle {| frame_data := [] |};
                 EvAudioClose "lecture.wav";
                 EvPrint "Speech recognition could not understand audio"])
  /\ process offline "lecture.wav" "transcribe" "de" scribe =
    (Return VNone,
     log scribe [EvAudioOpen "lecture.wav";
                 EvRecord {| source_path := "lecture.wav"; stream := [] |};
                 EvRecognizeGoogle {| frame_data := [] |};
                 EvAudioClose "lecture.wav";
                 EvPrint "Could not request results from Google Speech Recognition service; connection failed"])
  /\ process missing_file "lecture.wav" "transcribe" "de" scribe =
    (Return VNone,
     log scribe [EvAudioOpen "lecture.wav"; EvPrint "File not found: lecture.wav"])
  /\ process unreadable "notes.txt" "transcribe" "de" scribe =
       (Raise (OtherError "ValueError" "Audio file could not be read"),
        log scribe [EvAudioOpen "notes.txt"])
  /\ process models_down "Some text." "summarize" "de" scribe =
       (Raise (OtherError "RuntimeError" "out of memory"),
        log scribe [EvPipelineCall "summarization" "facebook/bart-large-cnn"
                      "Some text." summary_kwargs])
  /\ process models_down "Some text." "translate" "fr" scribe =
       (Raise (OtherError "RuntimeError" "out of memory"),
        log scribe [EvPipelineCall "translation" "Helsinki-NLP/opus-mt-en-fr"
                      "Some text." []])
  /\ process stub "Some text." "translate" "de" scribe =
       (Return (VStr "Target language not supported"),
        log scribe [EvPrint "Target language not currently supported. Only French is supported"])
  /\ process stub "Some text." "paraphrase" "de" scribe =
       (Return (VStr "Invalid task."), scribe).
Proof.
  pose proof (failure_outcomes unintelligible "lecture.wav" "de"
                "facebook/bart-large-cnn" "Helsinki-NLP/opus-mt-en-fr" scribe eq_refl)
    as (Hunknown & _).
  pose proof (failure_outcomes offline "lecture.wav" "de"
                "facebook/bart-large-cnn" "Helsinki-NLP/opus-mt-en-fr" scribe eq_refl)
    as (_ & Hrequest & _).
  pose proof (failure_outcomes missing_file "lecture.wav" "de"
                "facebook/bart-large-cnn" "Helsinki-NLP/opus-mt-en-fr" scribe eq_refl)
    as (_ & _ & Hmissing & _).
  pose proof (failure_outcomes unreadable "notes.txt" "de"
                "facebook/bart-large-cnn" "Helsinki-NLP/opus-mt-en-fr" scribe eq_refl)
    as (_ & _ & _ & Hother & _).
  pose proof (failure_outcomes models_down "Some text." "de"
                "facebook/bart-large-cnn" "Helsinki-NLP/opus-mt-en-fr" scribe eq_refl)
    as (_ & _ & _ & _ & Hsum & Htr & _).
  pose proof (failure_outcomes stub "Some text." "de"
                "facebook/bart-large-cnn" "Helsinki-NLP/opus-mt-en-fr" scribe eq_refl)
    as (_ & _ & _ & _ & _ & _ & Hlang & Htask).
  split_and!.
  - apply (Hunknown
             (log scribe [EvAudioOpen "lecture.wav";
                          EvRecord {| source_path := "lecture.wav"; stream := [] |};
                          EvRecognizeGoogle {| frame_data := [] |};
                          EvAudioClose "lecture.wav"])).
    reflexivity.
  - apply (Hrequest "connection failed"
             (log scribe [EvAudioOpen "lecture.wav";
                          EvRecord {| source_path := "lecture.wav"; stream := [] |};
                          EvRecognizeGoogle {| frame_data := [] |};
                          EvAudioClose "lecture.wav"])).
    reflexivity.
  - apply (Hmissing (log scribe [EvAudioOpen "lecture.wav"])). reflexivity.
  - apply Hother; [reflexivity | discriminate | discriminate | discriminate].
  - apply Hsum. reflexivity.
  - apply Htr. reflexivity.
  - apply Hlang. discriminate.
  - apply Htask; discriminate.
Defined.

(** ** Transcription *)

(** C4 (counterexample): for unintelligible audio [process] returns
    [None], an ordinary value and not an error, and it returns the very
    same value when the audio file is missing and when the recognition
    service is unreachable. *)
Lemma unrecognized_is_None_like_the_others :
  fst (process unintelligible "lecture.wav" "transcribe" "fr" scribe) = Return VNone
  /\ fst (process missing_file "lecture.wav" "transcribe" "fr" scribe)
       = fst (process unintelligible "lecture.wav" "transcribe" "fr" scribe)
  /\ fst (process offline "lecture.wav" "transcribe" "fr" scribe)
       = fst (process unintelligible "lecture.wav" "transcribe" "fr" scribe).
Proof. repeat split; reflexivity. Qed.

(** C4 (amended): on an initialised [AIScribe], a transcribe request whose
    audio the recognizer reports as unintelligible raises nothing and
    returns [None] after printing
    ["Speech recognition could not understand audio"]; a missing audio
    file and an unreachable recognition service return the same [None],
    each after printing a line of its own, so the three outcomes differ in
    the printed line only. *)
Theorem transcribe_failures_return_None (B : Backends)
    (input_data target_language sn tn : string) (st : State) :
  attrs st = scribe_attrs sn tn ->
  (forall source audio_data,
      AudioFile_enter B input_data = inr source ->
      Recognizer_record B source = inr audio_data ->
      Recognizer_recognize_google B audio_data = inl UnknownValueError ->
      process B input_data "transcribe" target_language st =
        (Return VNone,
         log st [EvAudioOpen input_data; EvRecord source; EvRecognizeGoogle audio_data;
                 EvAudioClose input_data;
                 EvPrint "Speech recognition could not understand audio"]))
  /\ (AudioFile_enter B input_data = inl FileNotFoundError ->
      process B input_data "transcribe" target_language st =
        (Return VNone,
         log st [EvAudioOpen input_data; EvPrint ("File not found: " +:+ input_data)]))
  /\ (forall source audio_data msg,
      AudioFile_enter B input_data = inr source ->
      Recognizer_record B source = inr audio_data ->
      Recognizer_recognize_google B audio_data = inl (RequestError msg) ->
      process B input_data "transcribe" target_language st =
        (Return VNone,
         log st [EvAudioOpen input_data; EvRecord source; EvRecognizeGoogle audio_data;
                 EvAudioClose input_data;
                 EvPrint ("Could not request results from Google Speech Recognition service; "
                          +:+ msg)])).
Proof.
  intros Hst.
  assert (Hr : attrs st !! "recognizer" = Some ORecognizer)
    by (rewrite Hst; apply scribe_attrs_recognizer).
  split_and!.
  - intros source audio_data Hopen Hrec Hgoogle.
    rewrite process_transcribe, (transcribe_audio_eq B _ _ Hr), Hopen, Hrec, Hgoogle.
    unfold handled. simpl. by rewrite log_log.
  - intros Hopen.
    rewrite process_transcribe, (transcribe_audio_eq B _ _ Hr), Hopen.
    unfold handled. simpl. by rewrite log_log.
  - intros source audio_data msg Hopen Hrec Hgoogle.
    rewrite process_transcribe, (transcribe_audio_eq B _ _ Hr), Hopen, Hrec, Hgoogle.
    unfold handled. simpl. by rewrite log_log.
Qed.

Lemma transcribe_failures_return_None_witness :
  process unintelligible "lecture.wav" "transcribe" "fr" scribe =
    (Return VNone,
     log scribe [EvAudioOpen "lecture.wav";
                 EvRecord {| source_path := "lecture.wav"; stream := [] |};
                 EvRecognizeGoogle {| frame_data := [] |};
                 EvAudioClose "lecture.wav";
                 EvPrint "Speech recognition could not understand audio"])
  /\ process missing_file "lecture.wav" "transcribe" "fr" scribe =
    (Return VNone,
     log scribe [EvAudioOpen "lecture.wav"; EvPrint "File not found: lecture.wav"])
  /\ process offline "lecture.wav" "transcribe" "fr" scribe =
    (Return VNone,
     log scribe [EvAudioOpen "lecture.wav";
                 EvRecord {| source_path := "lecture.wav"; stream := [] |};
                 EvRecognizeGoogle {| frame_data := [] |};
                 EvAudioClose "lecture.wav";
                 EvPrint "Could not request results from Google Speech Recognition service; connection failed"]).
Proof.
  pose proof (transcribe_failures_return_None unintelligible "lecture.wav" "fr"
                "facebook/bart-large-cnn" "Helsinki-NLP/opus-mt-en-fr" scribe eq_refl)
    as (Hunknown & _).
  pose proof (transcribe_failures_return_None missing_file "lecture.wav" "fr"
                "facebook/bart-large-cnn" "Helsinki-NLP/opus-mt-en-fr" scribe eq_refl)
    as (_ & Hmissing & _).
  pose proof (transcribe_failures_return_None offline "lecture.wav" "fr"
                "facebook/bart-large-cnn" "Helsinki-NLP/opus-mt-en-fr" scribe eq_refl)
    as (_ & _ & Hrequest).
  split_and!.
  - apply Hunknown; reflexivity.
  - apply Hmissing; reflexivity.
  - apply (Hrequest _ _ "connection failed"); reflexivity.
Defined.

(** ** Summarization *)

(** C5 (counterexample): summarizing the empty string does not fail: the
    summarization pipeline is called on the empty string and its summary is returned. *)
Lemma summarize_empty_reaches_the_model :
  process stub EmptyString "summarize" "fr" scribe =
    (Return (VStr "A fox jumps over a dog."),
     log scribe [EvPipelineCall "summarization" "facebook/bart-large-cnn" EmptyString summary_kwargs])
  /\ is_failure (fst (process stub EmptyString "summarize" "fr" scribe)) = false.
Proof. split; reflexivity. Qed.

(** C5 (amended): on an initialised [AIScribe], a summarize request on any
    text, the empty one included, calls the summarization pipeline once on
    that text with [max_length=150], [min_length=30], [do_sample=False],
    and its outcome is the [summary_text] of the pipeline's first answer;
    it fails only when the pipeline raises or answers without that
    entry. *)
Theorem summarize_dispatch (B : Backends) (text target_language sn tn : string)
    (st : State) :
  attrs st = scribe_attrs sn tn ->
  process B text "summarize" target_language st =
    (result_text "summary_text" (Pipeline_call B "summarization" sn text summary_kwargs),
     log st [EvPipelineCall "summarization" sn text summary_kwargs]).
Proof.
  intros Hst. rewrite process_summarize.
  apply summarize_text_eq. rewrite Hst. apply scribe_attrs_summary_model.
Qed.

Lemma summarize_dispatch_witness :
  process stub EmptyString "summarize" "fr" scribe =
    (result_text "summary_text"
       (Pipeline_call stub "summarization" "facebook/bart-large-cnn" EmptyString summary_kwargs),
     log scribe [EvPipelineCall "summarization" "facebook/bart-large-cnn" EmptyString summary_kwargs]).
Proof.
  apply (summarize_dispatch stub EmptyString "fr" "facebook/bart-large-cnn"
           "Helsinki-NLP/opus-mt-en-fr" scribe).
  reflexivity.
Defined.

(** ** Input validation *)

(** C6 (counterexample): an empty input is not rejected: the translation
    pipeline is called on the empty string and its answer is returned. *)
Lemma empty_input_reaches_the_provider :
  process stub EmptyString "translate" "fr" scribe =
    (Return (VStr "Bonjour, comment ça va?"),
     log scribe [EvPipelineCall "translation" "Helsinki-NLP/opus-mt-en-fr" EmptyString []])
  /\ is_failure (fst (process stub EmptyString "translate" "fr" scribe)) = false.
Proof. split; reflexivity. Qed.

(** C6 (amended): [process] validates nothing: on an initialised
    [AIScribe] and for every input string, empty or not, a transcribe
    request first opens the input as an audio file, a summarize request
    calls the summarization pipeline on it and a translate request to
    ["fr"] calls the translation pipeline on it. *)
Theorem no_input_validation (B : Backends) (input_data target_language sn tn : string)
    (st : State) :
  attrs st = scribe_attrs sn tn ->
  (exists evs,
      snd (process B input_data "transcribe" target_language st)
        = log st (EvAudioOpen input_data :: evs))
  /\ snd (process B input_data "summarize" target_language st)
       = log st [EvPipelineCall "summarization" sn input_data summary_kwargs]
  /\ snd (process B input_data "translate" "fr" st)
       = log st [EvPipelineCall "translation" tn input_data []].
Proof.
  intros Hst. split_and!.
  - rewrite process_transcribe, transcribe_audio_eq
      by (rewrite Hst; apply scribe_attrs_recognizer).
    unfold handled.
    destruct (AudioFile_enter B input_data) as [e | source].
    { destruct (except_line input_data e); simpl; rewrite ?log_log; eauto. }
    destruct (Recognizer_record B source) as [e | audio_data].
    { destruct (except_line input_data e); simpl; rewrite ?log_log; eauto. }
    destruct (Recognizer_recognize_google B audio_data) as [e | text];
      [destruct (except_line input_data e) |]; simpl; rewrite ?log_log; eauto.
  - rewrite process_summarize.
    by rewrite (summarize_text_eq B input_data "summarization" sn)
      by (rewrite Hst; apply scribe_attrs_summary_model).
  - rewrite process_translate.
    by rewrite (translate_text_fr_eq B input_data "translation" tn)
      by (rewrite Hst; apply scribe_attrs_translation_model).
Qed.

Lemma no_input_validation_witness :
  (exists evs,
      snd (process stub EmptyString "transcribe" "fr" scribe) = log scribe (EvAudioOpen EmptyString :: evs))
  /\ snd (process stub EmptyString "summarize" "fr" scribe)
       = log scribe [EvPipelineCall "summarization" "facebook/bart-large-cnn" EmptyString
                       summary_kwargs]
  /\ snd (process stub EmptyString "translate" "fr" scribe)
       = log scribe [EvPipelineCall "translation" "Helsinki-NLP/opus-mt-en-fr" EmptyString []].
Proof.
  apply (no_input_validation stub EmptyString "fr" "facebook/bart-large-cnn"
           "Helsinki-NLP/opus-mt-en-fr" scribe).
  reflexivity.
Defined.

(** ** Unknown tasks *)

(** C7 (counterexample): a task outside the three known ones does not
    fail: [process] returns the ordinary string ["Invalid task."]. *)
Lemma unknown_task_is_not_a_failure :
  fst (process stub "Some text." "paraphrase" "fr" scribe) = Return (VStr "Invalid task.")
  /\ is_failure (fst (process stub "Some text." "paraphrase" "fr" scribe)) = false.
Proof. split; reflexivity. Qed.

(** C7 (amended): for every task other than ["transcribe"], ["summarize"]
    and ["translate"], [process] returns the ordinary string
    ["Invalid task."] and leaves the state as it was: no provider is
    called and nothing is printed. *)
Theorem unknown_task (B : Backends) (input_data task target_language : string)
    (st : State) :
  task <> "transcribe" -> task <> "summarize" -> task <> "translate" ->
  process B input_data task target_language st = (Return (VStr "Invalid task."), st).
Proof. intros H1 H2 H3. by rewrite process_unknown. Qed.

Lemma unknown_task_witness :
  process stub "Some text." "paraphrase" "fr" scribe
    = (Return (VStr "Invalid task."), scribe).
Proof. apply unknown_task; discriminate. Defined.

(** ** The registry *)

(** C8: the registry is built by [__init__] and by nothing else.  When
    both models load, [__init__] on a fresh object assigns exactly the
    three attributes [recognizer], [summary_model] and
    [translation_model]; and after each call of any sequence of [process],
    [transcribe_audio], [summarize_text] and [translate_text] calls, the
    attributes of the object are the ones it had before the sequence, for
    the object [__init__] built as for any other. *)
Theorem registry_never_mutated (B : Backends) (cs : list Call) (st : State) :
  Forall (fun r => attrs (snd r) = attrs st) (run_calls B cs st)
  /\ (forall sn tn,
      transformers_pipeline B "summarization" sn = None ->
      transformers_pipeline B "translation" tn = None ->
      __init__ B sn tn fresh =
        (Return tt,
         {| attrs := scribe_attrs sn tn;
            trace := [EvLoadPipeline "summarization" sn;
                      EvLoadPipeline "translation" tn] |})
      /\ dom (scribe_attrs sn tn)
           = ({[ "recognizer"; "summary_model"; "translation_model" ]} : gset string)
      /\ scribe_attrs sn tn !! "recognizer" = Some ORecognizer
      /\ scribe_attrs sn tn !! "summary_model" = Some (OPipeline "summarization" sn)
      /\ scribe_attrs sn tn !! "translation_model" = Some (OPipeline "translation" tn)
      /\ Forall (fun r => attrs (snd r) = scribe_attrs sn tn)
           (run_calls B cs (snd (__init__ B sn tn fresh)))).
Proof.
  assert (Hframe : forall st0,
    Forall (fun r => attrs (snd r) = attrs st0) (run_calls B cs st0)).
  { induction cs as [| c cs' IH]; intros st0; simpl.
    - constructor.
    - destruct (read_only_run_call B c st0) as [evs Hevs].
      constructor.
      + by rewrite Hevs.
      + rewrite Hevs. apply (IH (log st0 evs)). }
  split; [apply Hframe |].
  intros sn tn Hs Ht.
  assert (Hinit : __init__ B sn tn fresh =
    (Return tt,
     {| attrs := scribe_attrs sn tn;
        trace := [EvLoadPipeline "summarization" sn;
                  EvLoadPipeline "translation" tn] |}))
    by (by rewrite init_builds_registry).
  split_and!.
  - exact Hinit.
  - unfold scribe_attrs. rewrite !dom_insert_L, dom_empty_L. set_solver.
  - apply scribe_attrs_recognizer.
  - apply scribe_attrs_summary_model.
  - apply scribe_attrs_translation_model.
  - rewrite Hinit. simpl.
    apply (Hframe {| attrs := scribe_attrs sn tn;
                     trace := [EvLoadPipeline "summarization" sn;
                               EvLoadPipeline "translation" tn] |}).
Qed.

Lemma registry_never_mutated_witness :
  __init__ stub "facebook/bart-large-cnn" "Helsinki-NLP/opus-mt-en-fr" fresh =
    (Return tt,
     {| attrs := scribe_attrs "facebook/bart-large-cnn" "Helsinki-NLP/opus-mt-en-fr";
        trace := [EvLoadPipeline "summarization" "facebook/bart-large-cnn";
                  EvLoadPipeline "translation" "Helsinki-NLP/opus-mt-en-fr"] |})
  /\ Forall (fun r => attrs (snd r)
                       = scribe_attrs "facebook/bart-large-cnn" "Helsinki-NLP/opus-mt-en-fr")
       (run_calls stub
          [CallProcess "lecture.wav" "transcribe" "fr";
           CallSummarize "Some text.";
           CallTranslate "Some text." "de";
           CallProcess "Some text." "paraphrase" "fr"]
          (snd (__init__ stub "facebook/bart-large-cnn" "Helsinki-NLP/opus-mt-en-fr"
                  fresh))).
Proof.
  destruct (registry_never_mutated stub
              [CallProcess "lecture.wav" "transcribe" "fr";
               CallSummarize "Some text.";
               CallTranslate "Some text." "de";
               CallProcess "Some text." "paraphrase" "fr"]
              fresh) as [_ Hbuilt].
  destruct (Hbuilt "facebook/bart-large-cnn" "Helsinki-NLP/opus-mt-en-fr"
              eq_refl eq_refl) as (Hinit & _ & _ & _ & _ & Hcalls).
  split; [exact Hinit | exact Hcalls].
Defined.

(** ** The parameters of [process] *)

(** C9: for every task other than ["translate"], [process] does not look
    at [target_language]: two calls that differ in it only are the same
    computation. *)
Theorem target_language_ignored (B : Backends)
    (input_data task target_language target_language' : string) :
  task <> "translate" ->
  process B input_data task target_language = process B input_data task target_language'.
Proof.
  intros Hne. unfold process.
  destruct (task =? "transcribe")%string; [reflexivity |].
  destruct (task =? "summarize")%string; [reflexivity |].
  apply String.eqb_neq in Hne. by rewrite Hne.
Qed.

Lemma target_language_ignored_witness :
  process stub "Some text." "summarize" "fr" = process stub "Some text." "summarize" "de".
Proof. apply target_language_ignored. discriminate. Defined.

(** C10: a call of [process] with the input only takes
    [task="transcribe"] and [target_language="fr"], and is the call
    [transcribe_audio] of that input. *)
Theorem process_defaults (B : Backends) (input_data : string) :
  process_call B input_data None None = process B input_data "transcribe" "fr"
  /\ process_call B input_data None None = transcribe_audio B input_data.
Proof. split; reflexivity. Qed.

(** * The pipeline runner *)

Section Pipeline.

Import PipelineRunner.

Context {W : Type}.

Lemma next_input_cons (initialInput : Input) (r : ProcessingResult)
    (rs : list ProcessingResult) :
  next_input initialInput (r :: rs) = next_input (TextBlob (output r)) rs.
Proof.
  unfold next_input. destruct rs as [| r' rs]; [reflexivity |].
  rewrite last_cons. by destruct (last (r' :: rs)).
Qed.

(** As many results as steps that succeeded. *)
Lemma succeeds_length
    (dispatch : ProcessingRequest -> W -> (ProcessingError + ProcessingResult) * W)
    (initialInput : Input) (w w' : W) (steps : list Step) (rs : list ProcessingResult) :
  succeeds dispatch initialInput w steps rs w' -> length rs = length steps.
Proof. induction 1; simpl; congruence. Qed.

(** Running [before ++ rest] when the dispatcher answers every step of
    [before]: the run keeps those answers and continues with [rest] from
    the last output, in the world the last invocation left. *)
Lemma run_app
    (dispatch : ProcessingRequest -> W -> (ProcessingError + ProcessingResult) * W)
    (before rest : list Step) (initialInput : Input) (w w1 : W)
    (rs : list ProcessingResult) :
  succeeds dispatch initialInput w before rs w1 ->
  run dispatch initialInput (before ++ rest) w =
    ({| results := rs ++ results (fst (run dispatch (next_input initialInput rs) rest w1));
        error := error (fst (run dispatch (next_input initialInput rs) rest w1)) |},
     snd (run dispatch (next_input initialInput rs) rest w1)).
Proof.
  induction 1 as [current w | current w w1 w' step before r rs Hstep Hrest IH]; simpl.
  - unfold next_input. simpl. by destruct (run dispatch current rest w) as [[? ?] ?].
  - rewrite Hstep, IH. simpl. by rewrite next_input_cons.
Qed.

(** C3: when the dispatcher answers the steps [before] of a pipeline with
    the results [rs] and answers the step after them with the error [e],
    the run of the whole pipeline returns exactly [rs] together with [e],
    and it leaves the world as the failing invocation left it, so no step
    of [after] is invoked.  With [k] the position of the failing step,
    these are the [k-1] results of the steps before it. *)
Theorem pipeline_fail_fast
    (dispatch : ProcessingRequest -> W -> (ProcessingError + ProcessingResult) * W)
    (initialInput : Input) (before after : list Step) (failing : Step)
    (e : ProcessingError) (rs : list ProcessingResult) (w w1 w2 : W) :
  succeeds dispatch initialInput w before rs w1 ->
  dispatch (request_of (next_input initialInput rs) failing) w1 = (inl e, w2) ->
  run dispatch initialInput (before ++ failing :: after) w
    = ({| results := rs; error := Some e |}, w2)
  /\ length rs = length before.
Proof.
  intros Hok Hfail.
  rewrite (run_app dispatch before (failing :: after) initialInput w w1 rs Hok).
  simpl. rewrite Hfail. simpl. rewrite app_nil_r.
  split; [done |]. by eapply succeeds_length.
Qed.

End Pipeline.

Lemma pipeline_fail_fast_witness :
  PipelineRunner.run PipelineRunner.stub_dispatch
      (PipelineRunner.AudioHandle "lecture.wav") PipelineRunner.three_steps []
    = ({| PipelineRunner.results :=
            [{| PipelineRunner.result_task := PipelineRunner.Transcribe;
                PipelineRunner.output := "hello world";
                PipelineRunner.metadata := [] |}];
          PipelineRunner.error := Some PipelineRunner.InputTooShort |},
       [{| PipelineRunner.input := PipelineRunner.AudioHandle "lecture.wav";
           PipelineRunner.task := PipelineRunner.Transcribe;
           PipelineRunner.parameters := PipelineRunner.NoParameters |};
        {| PipelineRunner.input := PipelineRunner.TextBlob "hello world";
           PipelineRunner.task := PipelineRunner.Summarize;
           PipelineRunner.parameters := PipelineRunner.LengthBounds 20 60 |}])
  /\ length [{| PipelineRunner.result_task := PipelineRunner.Transcribe;
                PipelineRunner.output := "hello world";
                PipelineRunner.metadata := [] |}] = 1%nat.
Proof.
  apply (pipeline_fail_fast PipelineRunner.stub_dispatch
           (PipelineRunner.AudioHandle "lecture.wav")
           [(PipelineRunner.Transcribe, PipelineRunner.NoParameters)]
           [(PipelineRunner.Translate, PipelineRunner.TargetLanguage "fr")]
           (PipelineRunner.Summarize, PipelineRunner.LengthBounds 20 60)
           PipelineRunner.InputTooShort
           [{| PipelineRunner.result_task := PipelineRunner.Transcribe;
               PipelineRunner.output := "hello world";
               PipelineRunner.metadata := [] |}]
           []
           [{| PipelineRunner.input := PipelineRunner.AudioHandle "lecture.wav";
               PipelineRunner.task := PipelineRunner.Transcribe;
               PipelineRunner.parameters := PipelineRunner.NoParameters |}]).
  - eapply PipelineRunner.succeeds_cons; [reflexivity | apply PipelineRunner.succeeds_nil].
  - reflexivity.
Defined.

(** * Further properties of [scribe.py] *)

(** ** Computations confined to a kind of events *)

Section Confined.

Context {A B : Type} (P : Event -> Prop).

Lemma confined_ret (a : A) : confined P (ret a).
Proof.
  intros st st' _. exists (Return a), []. unfold ret. by rewrite !log_nil.
Qed.

Lemma confined_raise (e : PyExc) : confined P (@raise A e).
Proof.
  intros st st' _. exists (Raise e), []. unfold raise. by rewrite !log_nil.
Qed.

Lemma confined_lift (r : PyExc + A) : confined P (lift r).
Proof. destruct r; [apply confined_raise | apply confined_ret]. Qed.

Lemma confined_bind (m : M A) (k : A -> M B) :
  confined P m -> (forall a, confined P (k a)) -> confined P (bind m k).
Proof.
  intros Hm Hk st st' Hattrs. unfold bind.
  destruct (Hm st st' Hattrs) as (o & d & -> & -> & Hd).
  destruct o as [a | e].
  - destruct (Hk a (log st d) (log st' d) Hattrs) as (o' & d' & -> & -> & Hd').
    exists o', (d ++ d'). rewrite !log_log. split_and!; try done.
    by apply Forall_app.
  - by exists (Raise e), d.
Qed.

Lemma confined_try_except (body : M A) (handler : PyExc -> option (M A)) :
  confined P body ->
  (forall e h, handler e = Some h -> confined P h) ->
  confined P (try_except body handler).
Proof.
  intros Hb Hh st st' Hattrs. unfold try_except.
  destruct (Hb st st' Hattrs) as (o & d & -> & -> & Hd).
  destruct o as [a | e].
  - by exists (Return a), d.
  - destruct (handler e) as [h |] eqn:He.
    + destruct (Hh e h He (log st d) (log st' d) Hattrs) as (o' & d' & -> & -> & Hd').
      exists o', (d ++ d'). rewrite !log_log. split_and!; try done.
      by apply Forall_app.
    + by exists (Raise e), d.
Qed.

Lemma confined_finally (body : M A) (cleanup : M unit) :
  confined P body -> confined P cleanup -> confined P (finally body cleanup).
Proof.
  intros Hb Hc st st' Hattrs. unfold finally.
  destruct (Hb st st' Hattrs) as (o & d & -> & -> & Hd).
  destruct (Hc (log st d) (log st' d) Hattrs) as (o' & d' & -> & -> & Hd').
  destruct o' as [u | e].
  - exists o, (d ++ d'). rewrite !log_log. split_and!; try done. by apply Forall_app.
  - exists (Raise e), (d ++ d'). rewrite !log_log. split_and!; try done.
    by apply Forall_app.
Qed.

End Confined.

Lemma confined_emit (P : Event -> Prop) (ev : Event) : P ev -> confined P (emit ev).
Proof.
  intros Hev st st' _. exists (Return tt), [ev]. rewrite !emit_log.
  split_and!; try done. by constructor.
Qed.

Lemma confined_getattr (P : Event -> Prop) (name : string) : confined P (getattr name).
Proof.
  intros st st' Hattrs. unfold getattr. rewrite <- Hattrs.
  destruct (attrs st !! name) as [o |].
  - exists (Return o), []. by rewrite !log_nil.
  - exists (Raise (AttributeError name)), []. by rewrite !log_nil.
Qed.

Lemma confined_index0 {A : Type} (P : Event -> Prop) (l : list A) :
  confined P (index0 l).
Proof.
  unfold index0. destruct (l !! 0%nat); [apply confined_ret | apply confined_raise].
Qed.

Lemma confined_subscript (P : Event -> Prop) (d : gmap string string) (key : string) :
  confined P (subscript d key).
Proof.
  unfold subscript. destruct (d !! key); [apply confined_ret | apply confined_raise].
Qed.

Lemma confined_weaken {A : Type} (P Q : Event -> Prop) (m : M A) :
  (forall ev, P ev -> Q ev) -> confined P m -> confined Q m.
Proof.
  intros HPQ Hm st st' Hattrs.
  destruct (Hm st st' Hattrs) as (o & d & H1 & H2 & Hd).
  exists o, d. split_and!; try done. eapply Forall_impl; eauto.
Qed.

(** What a confined computation does to one state. *)
Lemma confined_run {A : Type} (P : Event -> Prop) (m : M A) (st : State) :
  confined P m -> exists d, snd (m st) = log st d /\ Forall P d.
Proof.
  intros Hm. destruct (Hm st st eq_refl) as (o & d & -> & _ & Hd). by exists d.
Qed.

Create HintDb confined.
#[export] Hint Resolve confined_ret confined_raise confined_lift confined_getattr
  confined_index0 confined_subscript : confined.

Ltac confined :=
  repeat first
    [ apply confined_bind; [| intros ? ]
    | apply confined_finally
    | apply confined_emit; reflexivity
    | progress auto with confined ].

Section ConfinedMethods.

Variable B : Backends.

Lemma confined_record (P : Event -> Prop) (r : PyObj) (source : AudioSource) :
  P (EvRecord source) -> confined P (record B r source).
Proof.
  intros HP. destruct r; simpl; [| confined].
  apply confined_bind; [by apply confined_emit | intros; confined].
Qed.

Lemma confined_recognize_google (P : Event -> Prop) (r : PyObj) (audio_data : AudioData) :
  P (EvRecognizeGoogle audio_data) -> confined P (recognize_google B r audio_data).
Proof.
  intros HP. destruct r; simpl; [| confined].
  apply confined_bind; [by apply confined_emit | intros; confined].
Qed.

Lemma confined_call (P : Event -> Prop) (p : PyObj) (text : string)
    (kwargs : list (string * KwVal)) :
  (forall task model, P (EvPipelineCall task model text kwargs)) ->
  confined P (call B p text kwargs).
Proof.
  intros HP. destruct p; simpl; [confined |].
  apply confined_bind; [by apply confined_emit | intros; confined].
Qed.

Lemma confined_transcribe_audio (audio_file_path : string) :
  confined audio_or_print (transcribe_audio B audio_file_path).
Proof.
  unfold transcribe_audio, transcribe_try, with_AudioFile.
  apply confined_try_except.
  - repeat first
      [ apply confined_record; reflexivity
      | apply confined_recognize_google; reflexivity
      | progress confined ].
  - intros e h He. unfold transcribe_except, print in He.
    destruct e; simplify_eq; confined.
Qed.

Lemma confined_summarize_text (text : string) :
  confined (fun ev => is_pipeline_call ev = true) (summarize_text B text).
Proof.
  unfold summarize_text.
  repeat first [ apply confined_call; reflexivity | progress confined ].
Qed.

Lemma confined_translate_text (text target_language : string) :
  confined pipeline_or_print (translate_text B text target_language).
Proof.
  unfold translate_text, print. destruct (target_language =? "fr")%string;
    repeat first [ apply confined_call; reflexivity | progress confined ].
Qed.

Lemma confined_process_text (input_data task target_language : string) :
  task <> "transcribe" ->
  confined pipeline_or_print (process B input_data task target_language).
Proof.
  intros Hne. unfold process. apply String.eqb_neq in Hne. rewrite Hne.
  destruct (task =? "summarize")%string.
  { eapply confined_weaken; [| apply confined_summarize_text].
    intros ev Hev. unfold pipeline_or_print. by rewrite Hev. }
  destruct (task =? "translate")%string; [apply confined_translate_text |].
  apply confined_ret.
Qed.

Lemma confined_process (input_data task target_language : string) :
  confined not_a_load (process B input_data task target_language).
Proof.
  destruct (decide (task = "transcribe")) as [-> | Hne].
  - rewrite process_transcribe.
    eapply confined_weaken; [| apply confined_transcribe_audio].
    intros ev Hev. by destruct ev.
  - eapply confined_weaken; [| by apply confined_process_text].
    intros ev Hev. by destruct ev.
Qed.

Lemma confined_run_call (c : Call) : confined not_a_load (run_call B c).
Proof.
  destruct c; simpl.
  - apply confined_process.
  - eapply confined_weaken; [| apply confined_transcribe_audio].
    intros ev Hev. by destruct ev.
  - eapply confined_weaken; [| apply confined_summarize_text].
    intros ev Hev. by destruct ev.
  - eapply confined_weaken; [| apply confined_translate_text].
    intros ev Hev. by destruct ev.
Qed.

Lemma attrs_state_after (cs : list Call) (st : State) :
  attrs (state_after B cs st) = attrs st.
Proof.
  revert st. induction cs as [| c cs IH]; intros st; simpl; [done |].
  rewrite IH. destruct (read_only_run_call B c st) as [evs ->]. done.
Qed.

End ConfinedMethods.

(** ** The constructor *)

(** X1: when both models load, [__init__] on a fresh object loads the
    summarization model, then the translation model, and leaves an object
    with exactly the three attributes [recognizer], [summary_model] and
    [translation_model], the two pipelines built for the given model
    names. *)
Theorem init_registers_three_providers (B : Backends) (sn tn : string) :
  transformers_pipeline B "summarization" sn = None ->
  transformers_pipeline B "translation" tn = None ->
  __init__ B sn tn fresh =
    (Return tt,
     {| attrs := scribe_attrs sn tn;
        trace := [EvLoadPipeline "summarization" sn; EvLoadPipeline "translation" tn] |})
  /\ dom (scribe_attrs sn tn)
       = ({[ "recognizer"; "summary_model"; "translation_model" ]} : gset string)
  /\ scribe_attrs sn tn !! "recognizer" = Some ORecognizer
  /\ scribe_attrs sn tn !! "summary_model" = Some (OPipeline "summarization" sn)
  /\ scribe_attrs sn tn !! "translation_model" = Some (OPipeline "translation" tn).
Proof.
  intros Hs Ht. split_and!.
  - by rewrite init_builds_registry.
  - unfold scribe_attrs. rewrite !dom_insert_L, dom_empty_L. set_solver.
  - apply scribe_attrs_recognizer.
  - apply scribe_attrs_summary_model.
  - apply scribe_attrs_translation_model.
Qed.

Lemma init_registers_three_providers_witness :
  __init__ stub "facebook/bart-large-cnn" "Helsinki-NLP/opus-mt-en-fr" fresh =
    (Return tt, script_start)
  /\ dom (scribe_attrs "facebook/bart-large-cnn" "Helsinki-NLP/opus-mt-en-fr")
       = ({[ "recognizer"; "summary_model"; "translation_model" ]} : gset string).
Proof.
  destruct (init_registers_three_providers stub
              "facebook/bart-large-cnn" "Helsinki-NLP/opus-mt-en-fr")
    as (Hinit & Hdom & _); [reflexivity | reflexivity |].
  split; [exact Hinit | exact Hdom].
Defined.

(** The two ways [__init__] can fail. *)
Lemma init_stops_at_load_error (B : Backends) (sn tn : string) (st : State) :
  (forall e,
      transformers_pipeline B "summarization" sn = Some e ->
      __init__ B sn tn st =
        (Raise e,
         {| attrs := <["recognizer" := ORecognizer]> (attrs st);
            trace := trace st ++ [EvLoadPipeline "summarization" sn] |}))
  /\ (forall e,
      transformers_pipeline B "summarization" sn = None ->
      transformers_pipeline B "translation" tn = Some e ->
      __init__ B sn tn st =
        (Raise e,
         {| attrs := <["summary_model" := OPipeline "summarization" sn]>
                       (<["recognizer" := ORecognizer]> (attrs st));
            trace := trace st ++ [EvLoadPipeline "summarization" sn;
                                  EvLoadPipeline "translation" tn] |})).
Proof.
  split.
  - intros e Hs.
    unfold __init__, new_pipeline, bind, sr_Recognizer, setattr, emit, ret, raise.
    simpl. by rewrite Hs.
  - intros e Hs Ht.
    unfold __init__, new_pipeline, bind, sr_Recognizer, setattr, emit, ret, raise.
    simpl. rewrite Hs. simpl. rewrite Ht. by rewrite <- app_assoc.
Qed.

(** X2: [__init__] stops at the first model that fails to load and raises
    its exception.  When the summarization model fails, the translation
    model is never loaded and only [recognizer] has been assigned; when
    the translation model fails, [recognizer] and [summary_model] have
    been assigned and [translation_model] is left as it was. *)
Theorem init_stops_at_failed_load (B : Backends) (sn tn : string) (st : State) :
  (forall e,
      transformers_pipeline B "summarization" sn = Some e ->
      __init__ B sn tn st =
        (Raise e,
         {| attrs := <["recognizer" := ORecognizer]> (attrs st);
            trace := trace st ++ [EvLoadPipeline "summarization" sn] |}))
  /\ (forall e,
      transformers_pipeline B "summarization" sn = None ->
      transformers_pipeline B "translation" tn = Some e ->
      __init__ B sn tn st =
        (Raise e,
         {| attrs := <["summary_model" := OPipeline "summarization" sn]>
                       (<["recognizer" := ORecognizer]> (attrs st));
            trace := trace st ++ [EvLoadPipeline "summarization" sn;
                                  EvLoadPipeline "translation" tn] |})
      /\ attrs (snd (__init__ B sn tn st)) !! "translation_model"
           = attrs st !! "translation_model").
Proof.
  destruct (init_stops_at_load_error B sn tn st) as [Hfirst Hsecond].
  split; [exact Hfirst |].
  intros e Hs Ht. split; [by apply Hsecond |].
  rewrite (Hsecond e Hs Ht). simpl.
  rewrite lookup_insert_ne by done. by rewrite lookup_insert_ne by done.
Qed.

Lemma init_stops_at_failed_load_witness :
  __init__ no_network "facebook/bart-large-cnn" "Helsinki-NLP/opus-mt-en-fr" fresh =
    (Raise (OtherError "OSError" "cannot reach the hub"),
     {| attrs := <["recognizer" := ORecognizer]> ∅;
        trace := [EvLoadPipeline "summarization" "facebook/bart-large-cnn"] |})
  /\ fst (__init__ translation_unavailable
            "facebook/bart-large-cnn" "Helsinki-NLP/opus-mt-en-fr" fresh)
       = Raise (OtherError "OSError" "cannot reach the hub")
  /\ attrs (snd (__init__ translation_unavailable
                   "facebook/bart-large-cnn" "Helsinki-NLP/opus-mt-en-fr" fresh))
       !! "translation_model" = None.
Proof.
  pose proof (init_stops_at_failed_load no_network
                "facebook/bart-large-cnn" "Helsinki-NLP/opus-mt-en-fr" fresh)
    as [Hfirst _].
  pose proof (init_stops_at_failed_load translation_unavailable
                "facebook/bart-large-cnn" "Helsinki-NLP/opus-mt-en-fr" fresh)
    as [_ Hsecond].
  specialize (Hfirst (OtherError "OSError" "cannot reach the hub") eq_refl).
  destruct (Hsecond (OtherError "OSError" "cannot reach the hub") eq_refl eq_refl)
    as [Heq Hlookup].
  split_and!.
  - exact Hfirst.
  - by rewrite Heq.
  - by rewrite Hlookup.
Defined.

(** ** Transcription *)

(** X3: a transcribe request never raises [UnknownValueError],
    [RequestError] or [FileNotFoundError], whatever the backends do and
    whatever the state: these three are always absorbed by the [except]
    clauses. *)
Theorem transcribe_absorbs_the_caught_exceptions (B : Backends)
    (input_data target_language : string) (st : State) :
  fst (process B input_data "transcribe" target_language st) <> Raise UnknownValueError
  /\ (forall msg,
      fst (process B input_data "transcribe" target_language st)
        <> Raise (RequestError msg))
  /\ fst (process B input_data "transcribe" target_language st) <> Raise FileNotFoundError.
Proof.
  rewrite process_transcribe. unfold transcribe_audio, try_except.
  destruct (transcribe_try B input_data st) as [[v | e] st']; [by split_and! |].
  rewrite transcribe_except_eq. unfold handled.
  destruct e; simpl; split_and!; try intros msg'; congruence.
Qed.

(** X4: on an initialised [AIScribe], a transcribe request closes the
    audio file on every path that opened it: when the file opens, the new
    events are the opening, then calls of the recognizer only, then the
    closing, then prints only, also when the recognizer raises; when the
    file does not open, nothing but prints follows the attempt, so no
    recognizer call is made and nothing is closed. *)
Theorem transcribe_closes_the_audio_file (B : Backends)
    (input_data target_language sn tn : string) (st : State) :
  attrs st = scribe_attrs sn tn ->
  (forall source,
      AudioFile_enter B input_data = inr source ->
      exists calls prints,
        snd (process B input_data "transcribe" target_language st) =
          log st (EvAudioOpen input_data :: calls ++ EvAudioClose input_data :: prints)
        /\ Forall (fun ev => is_recognizer_call ev = true) calls
        /\ Forall (fun ev => is_print ev = true) prints)
  /\ (forall e,
      AudioFile_enter B input_data = inl e ->
      exists prints,
        snd (process B input_data "transcribe" target_language st) =
          log st (EvAudioOpen input_data :: prints)
        /\ Forall (fun ev => is_print ev = true) prints).
Proof.
  intros Hst.
  assert (Hr : attrs st !! "recognizer" = Some ORecognizer)
    by (rewrite Hst; apply scribe_attrs_recognizer).
  assert (Hhandled : forall e st',
    exists prints, snd (handled input_data e st') = log st' prints
                   /\ Forall (fun ev => is_print ev = true) prints).
  { intros e st'. unfold handled. destruct (except_line input_data e) as [line |]; simpl.
    - exists [EvPrint line]. by repeat constructor.
    - exists []. by rewrite log_nil. }
  rewrite process_transcribe, (transcribe_audio_eq B _ _ Hr). split.
  - intros source ->.
    destruct (Recognizer_record B source) as [e | audio_data].
    { destruct (Hhandled e (log st [EvAudioOpen input_data; EvRecord source;
                                    EvAudioClose input_data]))
        as (prints & -> & Hprints).
      exists [EvRecord source], prints. rewrite log_log. by repeat constructor. }
    destruct (Recognizer_recognize_google B audio_data) as [e | text].
    { destruct (Hhandled e (log st [EvAudioOpen input_data; EvRecord source;
                                    EvRecognizeGoogle audio_data;
                                    EvAudioClose input_data]))
        as (prints & -> & Hprints).
      exists [EvRecord source; EvRecognizeGoogle audio_data], prints.
      rewrite log_log. by repeat constructor. }
    exists [EvRecord source; EvRecognizeGoogle audio_data], [].
    by repeat constructor.
  - intros e ->.
    destruct (Hhandled e (log st [EvAudioOpen input_data])) as (prints & -> & Hprints).
    exists prints. by rewrite log_log.
Qed.

Lemma transcribe_closes_the_audio_file_witness :
  (exists calls prints,
      snd (process unintelligible "lecture.wav" "transcribe" "fr" scribe) =
        log scribe (EvAudioOpen "lecture.wav" :: calls
                    ++ EvAudioClose "lecture.wav" :: prints)
      /\ Forall (fun ev => is_recognizer_call ev = true) calls
      /\ Forall (fun ev => is_print ev = true) prints)
  /\ (exists prints,
      snd (process missing_file "lecture.wav" "transcribe" "fr" scribe) =
        log scribe (EvAudioOpen "lecture.wav" :: prints)
      /\ Forall (fun ev => is_print ev = true) prints).
Proof.
  pose proof (transcribe_closes_the_audio_file unintelligible "lecture.wav" "fr"
                "facebook/bart-large-cnn" "Helsinki-NLP/opus-mt-en-fr" scribe eq_refl)
    as [Hopened _].
  pose proof (transcribe_closes_the_audio_file missing_file "lecture.wav" "fr"
                "facebook/bart-large-cnn" "Helsinki-NLP/opus-mt-en-fr" scribe eq_refl)
    as [_ Hmissing].
  split.
  - apply (Hopened {| source_path := "lecture.wav"; stream := [] |}). reflexivity.
  - apply (Hmissing FileNotFoundError). reflexivity.
Defined.

(** X5: on an initialised [AIScribe], a transcribe request returns [None]
    exactly when it has printed a line: every [None] comes with a
    diagnostic on standard output, and a transcript or a raised exception
    comes with none. *)
Theorem transcribe_None_iff_printed (B : Backends)
    (input_data target_language sn tn : string) (st : State) :
  attrs st = scribe_attrs sn tn ->
  exists d,
    snd (process B input_data "transcribe" target_language st) = log st d
    /\ ((exists line, In (EvPrint line) d)
        <-> fst (process B input_data "transcribe" target_language st) = Return VNone).
Proof.
  intros Hst.
  assert (Hr : attrs st !! "recognizer" = Some ORecognizer)
    by (rewrite Hst; apply scribe_attrs_recognizer).
  assert (Hhandled : forall e d0,
    (forall line, ~ In (EvPrint line) d0) ->
    exists d, snd (handled input_data e (log st d0)) = log st d
      /\ ((exists line, In (EvPrint line) d)
          <-> fst (handled input_data e (log st d0)) = Return VNone)).
  { intros e d0 Hd0. unfold handled.
    destruct (except_line input_data e) as [line |]; simpl.
    - exists (d0 ++ [EvPrint line]). rewrite log_log. split; [done |].
      split; [done |]. intros _. exists line. apply in_or_app. right. by left.
    - exists d0. split; [done |]. split; [| done].
      intros [line Hin]. by destruct (Hd0 line). }
  rewrite process_transcribe, (transcribe_audio_eq B _ _ Hr).
  destruct (AudioFile_enter B input_data) as [e | source].
  { apply Hhandled. intros line [Hin | []]. discriminate. }
  destruct (Recognizer_record B source) as [e | audio_data].
  { apply Hhandled. intros line Hin. simpl in Hin. intuition discriminate. }
  destruct (Recognizer_recognize_google B audio_data) as [e | text].
  { apply Hhandled. intros line Hin. simpl in Hin. intuition discriminate. }
  eexists. split; [reflexivity |]. simpl. split; [| done].
  intros [line Hin]. simpl in Hin. intuition discriminate.
Qed.

Lemma transcribe_None_iff_printed_witness :
  exists d,
    snd (process unintelligible "lecture.wav" "transcribe" "fr" scribe) = log scribe d
    /\ ((exists line, In (EvPrint line) d)
        <-> fst (process unintelligible "lecture.wav" "transcribe" "fr" scribe)
              = Return VNone).
Proof.
  apply (transcribe_None_iff_printed unintelligible "lecture.wav" "fr"
           "facebook/bart-large-cnn" "Helsinki-NLP/opus-mt-en-fr" scribe).
  reflexivity.
Defined.

(** ** What [process] returns and what it touches *)

Lemma never_None_bind {A : Type} (m : M A) (k : A -> M PyVal) :
  (forall a, never_None (k a)) -> never_None (bind m k).
Proof.
  intros Hk st. unfold bind. destruct (m st) as [[a | e] st']; [apply Hk | done].
Qed.

Lemma never_None_summarize_text (B : Backends) (text : string) :
  never_None (summarize_text B text).
Proof.
  unfold summarize_text. repeat (apply never_None_bind; intros ?). by intros st.
Qed.

Lemma never_None_translate_text (B : Backends) (text target_language : string) :
  never_None (translate_text B text target_language).
Proof.
  unfold translate_text. destruct (target_language =? "fr")%string;
    repeat (apply never_None_bind; intros ?); by intros st.
Qed.

(** X6: [None] can only come out of a transcribe request: whenever
    [process] returns [None], the task was ["transcribe"]; summarize,
    translate and unknown tasks return a string or raise. *)
Theorem only_transcribe_returns_None (B : Backends)
    (input_data task target_language : string) (st : State) :
  fst (process B input_data task target_language st) = Return VNone ->
  task = "transcribe".
Proof.
  unfold process.
  destruct (task =? "transcribe")%string eqn:Ht; [intros _; by apply String.eqb_eq |].
  destruct (task =? "summarize")%string.
  { intros H. by destruct (never_None_summarize_text B input_data st). }
  destruct (task =? "translate")%string.
  { intros H. by destruct (never_None_translate_text B input_data target_language st). }
  discriminate.
Qed.

Lemma only_transcribe_returns_None_witness :
  fst (process unintelligible "lecture.wav" "transcribe" "fr" scribe) = Return VNone
  /\ "transcribe" = "transcribe".
Proof.
  split; [reflexivity |].
  apply (only_transcribe_returns_None unintelligible "lecture.wav" "transcribe" "fr" scribe).
  reflexivity.
Defined.

(** X7: a transcribe request never calls a [transformers] pipeline and
    never loads a model: whatever the backends and the state, every event
    it adds is an audio or recognizer event or a print. *)
Theorem transcribe_touches_no_model (B : Backends)
    (input_data target_language : string) (st : State) :
  exists d,
    snd (process B input_data "transcribe" target_language st) = log st d
    /\ Forall audio_or_print d
    /\ Forall (fun ev => is_pipeline_call ev = false /\ is_load ev = false) d.
Proof.
  rewrite process_transcribe.
  destruct (confined_run audio_or_print _ st (confined_transcribe_audio B input_data))
    as (d & Hd & HP).
  exists d. split_and!; try done.
  eapply Forall_impl; [exact HP |]. intros ev Hev. by destruct ev.
Qed.

(** X8: a request for any task other than ["transcribe"] never opens an
    audio file and never calls the recognizer: every event it adds is a
    pipeline call or a print. *)
Theorem text_tasks_touch_no_audio (B : Backends)
    (input_data task target_language : string) (st : State) :
  task <> "transcribe" ->
  exists d,
    snd (process B input_data task target_language st) = log st d
    /\ Forall pipeline_or_print d
    /\ Forall (fun ev => is_audio_event ev = false /\ is_load ev = false) d.
Proof.
  intros Hne.
  destruct (confined_run pipeline_or_print _ st
              (confined_process_text B input_data task target_language Hne))
    as (d & Hd & HP).
  exists d. split_and!; try done.
  eapply Forall_impl; [exact HP |]. intros ev Hev. by destruct ev.
Qed.

Lemma text_tasks_touch_no_audio_witness :
  exists d,
    snd (process stub "example.wav" "summarize" "fr" scribe) = log scribe d
    /\ Forall pipeline_or_print d
    /\ Forall (fun ev => is_audio_event ev = false /\ is_load ev = false) d.
Proof. apply text_tasks_touch_no_audio. discriminate. Defined.

(** X9: the models are loaded by [__init__] only: no sequence of
    [process], [transcribe_audio], [summarize_text] and [translate_text]
    calls ever loads a model again. *)
Theorem no_call_reloads_a_model (B : Backends) (cs : list Call) (st : State) :
  exists d, state_after B cs st = log st d /\ Forall not_a_load d.
Proof.
  revert st. induction cs as [| c cs IH]; intros st; simpl.
  - exists []. by rewrite log_nil.
  - destruct (confined_run not_a_load _ st (confined_run_call B c)) as (d & -> & Hd).
    destruct (IH (log st d)) as (d' & -> & Hd').
    exists (d ++ d'). rewrite log_log. split; [done |]. by apply Forall_app.
Qed.

Lemma filter_pipeline_call_nil (d : list Event) :
  Forall (fun ev => is_pipeline_call ev = false) d ->
  List.filter is_pipeline_call d = [].
Proof.
  induction 1 as [| ev d Hev _ IH]; simpl; [done |]. by rewrite Hev.
Qed.

Lemma pipeline_delta (B : Backends) (name key text : string)
    (kwargs : list (string * KwVal)) (st : State) :
  exists d,
    snd ((m <- getattr name ;;
          out <- call B m text kwargs ;;
          item <- index0 out ;;
          s <- subscript item key ;;
          ret (VStr s)) st) = log st d
    /\ length (List.filter is_pipeline_call d) <= 1.
Proof.
  unfold bind at 1. unfold getattr.
  destruct (attrs st !! name) as [[| task model] |].
  - exists []. simpl. rewrite log_nil. split; [done | lia].
  - exists [EvPipelineCall task model text kwargs]. split; [| simpl; lia].
    unfold call, bind. rewrite emit_log.
    destruct (Pipeline_call B task model text kwargs) as [e | out]; simpl; [done |].
    unfold index0. destruct (out !! 0%nat) as [item |]; simpl; [| done].
    unfold subscript. by destruct (item !! key).
  - exists []. simpl. rewrite log_nil. split; [done | lia].
Qed.

(** X10: one request is at most one model inference: whatever the task,
    the backends and the state, [process] calls a [transformers] pipeline
    at most once. *)
Theorem at_most_one_pipeline_call (B : Backends)
    (input_data task target_language : string) (st : State) :
  exists d,
    snd (process B input_data task target_language st) = log st d
    /\ length (List.filter is_pipeline_call d) <= 1.
Proof.
  unfold process.
  destruct (task =? "transcribe")%string.
  { destruct (confined_run audio_or_print _ st (confined_transcribe_audio B input_data))
      as (d & Hd & HP).
    exists d. split; [done |]. rewrite filter_pipeline_call_nil; [simpl; lia |].
    eapply Forall_impl; [exact HP |]. intros ev Hev. by destruct ev. }
  destruct (task =? "summarize")%string; [apply pipeline_delta |].
  destruct (task =? "translate")%string.
  { unfold translate_text. destruct (target_language =? "fr")%string;
      [apply pipeline_delta |].
    eexists. split; [reflexivity |]. simpl. lia. }
  exists []. simpl. rewrite log_nil. split; [done | lia].
Qed.

(** X11: a call does not depend on the calls made before it: after any
    sequence of calls, a call has the outcome and adds the events it would
    have had and added before them. *)
Theorem call_independent_of_history (B : Backends) (cs : list Call) (c : Call)
    (st : State) :
  fst (run_call B c (state_after B cs st)) = fst (run_call B c st)
  /\ exists d,
      snd (run_call B c st) = log st d
      /\ snd (run_call B c (state_after B cs st)) = log (state_after B cs st) d.
Proof.
  destruct (confined_run_call B c st (state_after B cs st)) as (o & d & H1 & H2 & _).
  { by rewrite attrs_state_after. }
  rewrite H1, H2. split; [done |]. by exists d.
Qed.

(** X12: on an initialised [AIScribe], a pipeline answer that is not a
    non-empty list whose first item has the expected key makes the request
    raise: an empty list raises [IndexError], a first item without
    [summary_text] (for summarize) or [translation_text] (for translate)
    raises [KeyError] of that key; in each case after the one pipeline
    call. *)
Theorem malformed_pipeline_answer (B : Backends)
    (input_data target_language sn tn : string) (st : State) :
  attrs st = scribe_attrs sn tn ->
  (Pipeline_call B "summarization" sn input_data summary_kwargs = inr [] ->
   process B input_data "summarize" target_language st =
     (Raise IndexError,
      log st [EvPipelineCall "summarization" sn input_data summary_kwargs]))
  /\ (forall item rest,
      Pipeline_call B "summarization" sn input_data summary_kwargs = inr (item :: rest) ->
      item !! "summary_text" = None ->
      process B input_data "summarize" target_language st =
        (Raise (KeyError "summary_text"),
         log st [EvPipelineCall "summarization" sn input_data summary_kwargs]))
  /\ (Pipeline_call B "translation" tn input_data [] = inr [] ->
      process B input_data "translate" "fr" st =
        (Raise IndexError, log st [EvPipelineCall "translation" tn input_data []]))
  /\ (forall item rest,
      Pipeline_call B "translation" tn input_data [] = inr (item :: rest) ->
      item !! "translation_text" = None ->
      process B input_data "translate" "fr" st =
        (Raise (KeyError "translation_text"),
         log st [EvPipelineCall "translation" tn input_data []])).
Proof.
  intros Hst.
  assert (Hs : attrs st !! "summary_model" = Some (OPipeline "summarization" sn))
    by (rewrite Hst; apply scribe_attrs_summary_model).
  assert (Ht : attrs st !! "translation_model" = Some (OPipeline "translation" tn))
    by (rewrite Hst; apply scribe_attrs_translation_model).
  split_and!.
  - intros Hcall. rewrite process_summarize, (summarize_text_eq B _ _ _ _ Hs), Hcall.
    reflexivity.
  - intros item rest Hcall Hitem.
    rewrite process_summarize, (summarize_text_eq B _ _ _ _ Hs), Hcall.
    simpl. by rewrite Hitem.
  - intros Hcall. rewrite process_translate, (translate_text_fr_eq B _ _ _ _ Ht), Hcall.
    reflexivity.
  - intros item rest Hcall Hitem.
    rewrite process_translate, (translate_text_fr_eq B _ _ _ _ Ht), Hcall.
    simpl. by rewrite Hitem.
Qed.

Lemma malformed_pipeline_answer_witness :
  fst (process empty_answers "Some text." "summarize" "fr" scribe) = Raise IndexError
  /\ fst (process other_key "Some text." "summarize" "fr" scribe)
       = Raise (KeyError "summary_text")
  /\ fst (process empty_answers "Some text." "translate" "fr" scribe) = Raise IndexError
  /\ fst (process other_key "Some text." "translate" "fr" scribe)
       = Raise (KeyError "translation_text").
Proof.
  pose proof (malformed_pipeline_answer empty_answers "Some text." "fr"
                "facebook/bart-large-cnn" "Helsinki-NLP/opus-mt-en-fr" scribe eq_refl)
    as (Hs_empty & _ & Ht_empty & _).
  pose proof (malformed_pipeline_answer other_key "Some text." "fr"
                "facebook/bart-large-cnn" "Helsinki-NLP/opus-mt-en-fr" scribe eq_refl)
    as (_ & Hs_key & _ & Ht_key).
  split_and!.
  - by rewrite Hs_empty.
  - by rewrite (Hs_key {[ "generated_text" := "text" ]} []).
  - by rewrite Ht_empty.
  - by rewrite (Ht_key {[ "generated_text" := "text" ]} []).
Defined.

(** ** The example script *)

Lemma bind_Return {A B : Type} (m : M A) (k : A -> M B) (st st' : State) (a : A) :
  m st = (Return a, st') -> bind m k st = k a st'.
Proof. intros H. unfold bind. by rewrite H. Qed.

Lemma bind_Raise {A B : Type} (m : M A) (k : A -> M B) (st st' : State) (e : PyExc) :
  m st = (Raise e, st') -> bind m k st = (Raise e, st').
Proof. intros H. unfold bind. by rewrite H. Qed.

(** Whatever follows a computation only adds to what it left. *)
Lemma bind_extends {A B : Type} (m : M A) (k : A -> M B) (st : State) :
  (forall a, read_only (k a)) ->
  exists evs, snd (bind m k st) = log (snd (m st)) evs.
Proof.
  intros Hk. unfold bind. destruct (m st) as [[a | e] st']; simpl.
  - apply Hk.
  - exists []. by rewrite log_nil.
Qed.

Lemma read_only_print2 (label : string) (v : PyVal) : read_only (print2 label v).
Proof. apply read_only_emit. Qed.

(** The example script up to the summarization request, when the models
    load and the transcribe request returns [v]. *)
Lemma main_after_transcription (B : Backends) (v : PyVal) (st1 : State) :
  transformers_pipeline B "summarization" "facebook/bart-large-cnn" = None ->
  transformers_pipeline B "translation" "Helsinki-NLP/opus-mt-en-fr" = None ->
  process B "example.wav" "transcribe" "fr" script_start = (Return v, st1) ->
  attrs st1 = scribe_attrs "facebook/bart-large-cnn" "Helsinki-NLP/opus-mt-en-fr"
  /\ main B fresh =
       (summary <- process B sample_text "summarize" "fr" ;;
        print2 (LF +:+ "Summary:") summary ;;
        translation <- process B "Hello, how are you?" "translate" "fr" ;;
        print2 (LF +:+ "Translation:") translation)
         (if truthy v then log st1 [EvPrint ("Transcribed Text: " +:+ str v)] else st1).
Proof.
  intros Hs Ht Htr. split.
  - destruct (read_only_process B "example.wav" "transcribe" "fr" script_start)
      as [d Hd].
    rewrite Htr in Hd. simpl in Hd. by rewrite Hd.
  - unfold main.
    rewrite (bind_Return _ _ fresh script_start tt)
      by (unfold AIScribe_new; simpl; by rewrite init_builds_registry).
    rewrite (bind_Return _ _ script_start st1 v) by exact Htr.
    destruct (truthy v).
    + by rewrite (bind_Return _ _ st1
                    (log st1 [EvPrint ("Transcribed Text: " +:+ str v)]) tt).
    + by rewrite (bind_Return _ _ st1 st1 tt).
Qed.

(** X13: in the example script, once the models are loaded and the
    transcribe request has returned, a transcript that is [None] or the
    empty string is not printed, and a non-empty one is printed as
    ["Transcribed Text: ..."]; in both cases the script goes on and the
    next event is the summarization of [sample_text], so a failed
    transcription does not stop the script and the summary never depends
    on the transcript. *)
Theorem script_skips_a_falsy_transcript (B : Backends) (v : PyVal) (st1 : State) :
  transformers_pipeline B "summarization" "facebook/bart-large-cnn" = None ->
  transformers_pipeline B "translation" "Helsinki-NLP/opus-mt-en-fr" = None ->
  process B "example.wav" "transcribe" "fr" script_start = (Return v, st1) ->
  (truthy v = false ->
   exists evs,
     snd (main B fresh) =
       log st1 (EvPipelineCall "summarization" "facebook/bart-large-cnn"
                  sample_text summary_kwargs :: evs))
  /\ (truthy v = true ->
      exists evs,
        snd (main B fresh) =
          log st1 (EvPrint ("Transcribed Text: " +:+ str v)
                   :: EvPipelineCall "summarization" "facebook/bart-large-cnn"
                        sample_text summary_kwargs :: evs)).
Proof.
  intros Hs Ht Htr.
  destruct (main_after_transcription B v st1 Hs Ht Htr) as [Hattrs ->].
  assert (Hnext : forall st,
    attrs st = scribe_attrs "facebook/bart-large-cnn" "Helsinki-NLP/opus-mt-en-fr" ->
    exists evs,
      snd ((summary <- process B sample_text "summarize" "fr" ;;
            print2 (LF +:+ "Summary:") summary ;;
            translation <- process B "Hello, how are you?" "translate" "fr" ;;
            print2 (LF +:+ "Translation:") translation) st) =
        log st (EvPipelineCall "summarization" "facebook/bart-large-cnn"
                  sample_text summary_kwargs :: evs)).
  { intros st Hst.
    destruct (bind_extends (process B sample_text "summarize" "fr")
                (fun summary =>
                   print2 (LF +:+ "Summary:") summary ;;
                   translation <- process B "Hello, how are you?" "translate" "fr" ;;
                   print2 (LF +:+ "Translation:") translation) st) as [evs ->].
    { intros summary. apply read_only_bind; [apply read_only_print2 | intros _].
      apply read_only_bind; [apply read_only_process | intros ?].
      apply read_only_print2. }
    rewrite process_summarize.
    rewrite (summarize_text_eq B sample_text "summarization" "facebook/bart-large-cnn")
      by (rewrite Hst; apply scribe_attrs_summary_model).
    simpl. rewrite log_log. by exists evs. }
  split; intros Hv; rewrite Hv.
  - by apply Hnext.
  - destruct (Hnext (log st1 [EvPrint ("Transcribed Text: " +:+ str v)]) Hattrs)
      as [evs ->].
    rewrite log_log. by exists evs.
Qed.

Lemma script_skips_a_falsy_transcript_witness :
  (exists evs,
      snd (main unintelligible fresh) =
        log (snd (process unintelligible "example.wav" "transcribe" "fr" script_start))
          (EvPipelineCall "summarization" "facebook/bart-large-cnn"
             sample_text summary_kwargs :: evs))
  /\ (exists evs,
      snd (main silence fresh) =
        log (snd (process silence "example.wav" "transcribe" "fr" script_start))
          (EvPipelineCall "summarization" "facebook/bart-large-cnn"
             sample_text summary_kwargs :: evs))
  /\ (exists evs,
      snd (main stub fresh) =
        log (snd (process stub "example.wav" "transcribe" "fr" script_start))
          (EvPrint "Transcribed Text: hello world"
           :: EvPipelineCall "summarization" "facebook/bart-large-cnn"
                sample_text summary_kwargs :: evs)).
Proof.
  split_and!.
  - apply (script_skips_a_falsy_transcript unintelligible VNone); reflexivity.
  - apply (script_skips_a_falsy_transcript silence (VStr EmptyString)); reflexivity.
  - apply (script_skips_a_falsy_transcript stub (VStr "hello world")); reflexivity.
Defined.

(** X14: in the example script, when the summarization pipeline raises,
    the script ends with that exception and the translation is never
    requested: no call of the translation pipeline is among its events. *)
Theorem script_stops_when_summarization_raises (B : Backends) (v : PyVal)
    (st1 : State) (e : PyExc) :
  transformers_pipeline B "summarization" "facebook/bart-large-cnn" = None ->
  transformers_pipeline B "translation" "Helsinki-NLP/opus-mt-en-fr" = None ->
  process B "example.wav" "transcribe" "fr" script_start = (Return v, st1) ->
  Pipeline_call B "summarization" "facebook/bart-large-cnn" sample_text summary_kwargs
    = inl e ->
  fst (main B fresh) = Raise e
  /\ Forall (fun ev => is_translation_call ev = false) (trace (snd (main B fresh))).
Proof.
  intros Hs Ht Htr Hcall.
  destruct (main_after_transcription B v st1 Hs Ht Htr) as [Hattrs ->].
  assert (Hst1 : Forall (fun ev => is_translation_call ev = false) (trace st1)).
  { destruct (confined_run audio_or_print _ script_start
                (confined_transcribe_audio B "example.wav")) as (d & Hd & HP).
    rewrite <- (process_transcribe B "example.wav" "fr"), Htr in Hd.
    simpl in Hd. rewrite Hd. simpl. repeat constructor.
    eapply Forall_impl; [exact HP |]. intros ev Hev. by destruct ev. }
  assert (Hnext : forall st,
    attrs st = scribe_attrs "facebook/bart-large-cnn" "Helsinki-NLP/opus-mt-en-fr" ->
    (summary <- process B sample_text "summarize" "fr" ;;
     print2 (LF +:+ "Summary:") summary ;;
     translation <- process B "Hello, how are you?" "translate" "fr" ;;
     print2 (LF +:+ "Translation:") translation) st =
      (Raise e,
       log st [EvPipelineCall "summarization" "facebook/bart-large-cnn"
                 sample_text summary_kwargs])).
  { intros st Hst. apply bind_Raise.
    rewrite process_summarize.
    rewrite (summarize_text_eq B sample_text "summarization" "facebook/bart-large-cnn")
      by (rewrite Hst; apply scribe_attrs_summary_model).
    by rewrite Hcall. }
  destruct (truthy v); rewrite Hnext by done; (split; [done |]); simpl;
    rewrite ?Forall_app; split_and!; try done; by repeat constructor.
Qed.

Lemma script_stops_when_summarization_raises_witness :
  fst (main models_down fresh) = Raise (OtherError "RuntimeError" "out of memory")
  /\ Forall (fun ev => is_translation_call ev = false)
       (trace (snd (main models_down fresh))).
Proof.
  apply (script_stops_when_summarization_raises models_down (VStr "hello world")
           (snd (process models_down "example.wav" "transcribe" "fr" script_start)));
    reflexivity.
Defined.

(** X15: the example script makes no request on a half-built object: when
    either model fails to load, the script ends with the exception of
    [AIScribe()] and its only events are model loads; no audio file is
    opened and no pipeline is called. *)
Theorem script_needs_both_models (B : Backends) (e : PyExc) :
  transformers_pipeline B "summarization" "facebook/bart-large-cnn" = Some e
  \/ (transformers_pipeline B "summarization" "facebook/bart-large-cnn" = None
      /\ transformers_pipeline B "translation" "Helsinki-NLP/opus-mt-en-fr" = Some e) ->
  fst (main B fresh) = Raise e
  /\ Forall (fun ev => is_load ev = true) (trace (snd (main B fresh))).
Proof.
  intros [Hs | [Hs Ht]]; unfold main, AIScribe_new; simpl.
  - destruct (init_stops_at_load_error B "facebook/bart-large-cnn"
                "Helsinki-NLP/opus-mt-en-fr" fresh) as [Hfirst _].
    rewrite (bind_Raise _ _ _ _ _ (Hfirst e Hs)). simpl. by repeat constructor.
  - destruct (init_stops_at_load_error B "facebook/bart-large-cnn"
                "Helsinki-NLP/opus-mt-en-fr" fresh) as [_ Hsecond].
    rewrite (bind_Raise _ _ _ _ _ (Hsecond e Hs Ht)). simpl. by repeat constructor.
Qed.

Lemma script_needs_both_models_witness :
  fst (main no_network fresh) = Raise (OtherError "OSError" "cannot reach the hub")
  /\ Forall (fun ev => is_load ev = true) (trace (snd (main no_network fresh))).
Proof. apply script_needs_both_models. left. reflexivity. Defined.
